(** * brauser: a preconfigured http client with cookie jar, timeouts and retries

    A shallow embedding of [brauser.go] (and of the older copy of the same
    package, [unnamed/part_000]) together with the properties of its
    constructor, its fetch/retry loop and its cookie import/export.

    The Go standard library (net/http, net/http/cookiejar, net/url,
    encoding/json, io/ioutil, time) is not part of the package: its types and
    functions are the fields of the classes [Types] and [Platform] below, and
    every theorem holds for every platform. *)

From Stdlib Require Import ZArith List Lia.
From stdpp Require Import base option list gmap strings.
From Equations Require Import Equations.
Import ListNotations.

Local Open Scope Z_scope.
Local Open Scope string_scope.

(** A Go [error] value, identified by its message; [option error] is the
    interface value, [None] being [nil]. *)
Definition error := string.

(** [[]byte] contents. *)
Definition bytes := list Byte.byte.

(** ** The Go packages the client is built from *)

Module time.
(** [time.Duration]: a count of nanoseconds (int64). *)
Definition Duration := Z.
Definition Nanosecond : Duration := 1.
Definition Second : Duration := 1000000000.
(** [time.Time]; only its zero value occurs. *)
Definition Time := Z.
End time.

Module net.
Record Dialer := { Timeout : time.Duration }.
End net.

(** The types of the standard library that the package only passes around. *)
Class Types := {
  url_URL : Type;       (* url.URL *)
  http_Cookie : Type;   (* http.Cookie *)
  cookiejar_Jar : Type; (* the contents of a cookiejar.Jar *)
  io_Reader : Type;     (* an io.Reader handed in as request payload *)
  Network : Type;       (* everything behind the transport: network, servers, clock *)
  Files : Type;         (* the file system *)
}.

Module http.
(** [http.Header]: canonical key to the list of its values. *)
Abbreviation Header := (gmap string (list string)).

(** A response body ([io.ReadCloser]) as a reader sees it: the bytes it
    delivers, and the error that ends the stream, [None] for a clean EOF. *)
Record ReadCloser := { content : bytes; fault : option error }.

Record Response := { StatusCode : Z; Body : ReadCloser }.

Record Transport := { Dial : net.Dialer; TLSHandshakeTimeout : time.Duration }.

(** [Jar] is the address of the jar object in the store of the world,
    [None] for a nil interface. *)
Record Client := { Jar : option nat; Timeout : time.Duration; Transport_ : Transport }.

Section request.
Context `{Types}.
Record Request := {
  Method : string;
  URL : url_URL;
  Header_ : Header;
  Payload : option io_Reader;
}.
End request.
End http.

(** What [http.Client.Do] hands back: [(resp, err)], each of them possibly nil. *)
Abbreviation DoResult := (option http.Response * option error)%type.

(** The functions of the standard library that the package calls. A Go
    result [(v, err)] of which only one is meaningful is a sum: [inl v] for a
    nil error, [inr err] otherwise. *)
Class Platform `{Types} := {
  url_Parse : string -> url_URL + error;
  URL_String : url_URL -> string;
  (* cookiejar.New(nil): the new jar and the error *)
  cookiejar_New : option cookiejar_Jar * option error;
  (* Jar.Cookies also updates the jar (access times, expired entries) *)
  Jar_Cookies : url_URL -> cookiejar_Jar -> list http_Cookie * cookiejar_Jar;
  Jar_SetCookies : url_URL -> list http_Cookie -> cookiejar_Jar -> cookiejar_Jar;
  json_Marshal : list http_Cookie -> bytes + error;
  json_Unmarshal : bytes -> list http_Cookie + error;
  ioutil_ReadFile : string -> Files -> bytes + error;
  (* name, data, permission bits *)
  ioutil_WriteFile : string -> bytes -> Z -> Files -> option error * Files;
  (* method, url, body *)
  http_NewRequest : string -> string -> option io_Reader -> http.Request + error;
  (* textproto.CanonicalMIMEHeaderKey, applied by Header.Add *)
  CanonicalMIMEHeaderKey : string -> string;
  (* Client.Do: the client, the contents of its jar, the request *)
  http_Do : http.Client -> option cookiejar_Jar -> http.Request -> Network ->
            DoResult * option cookiejar_Jar * Network;
  (* the world after time.Sleep d *)
  time_Sleep : time.Duration -> Network -> Network;
  (* the order in which one `for k, p := range params` visits a map; Go
     leaves it unspecified *)
  range : gmap string string -> list (string * string);
  range_perm : forall m, range m ≡ₚ map_to_list m;
}.

(** ** The package's types *)

(** [Tries] is a Go [int]; the embedding keeps it in [Z]. *)
Record Options := {
  Timeout : time.Duration;
  TlsHandshakeTimeout : time.Duration;
  DialTimeout : time.Duration;
  Tries : Z;
  Verbose : bool;
}.

(** [cl] is a pointer: [None] is nil, as in the zero [WebClient]. *)
Record WebClient := {
  cl : option http.Client;
  options : Options;
  lastTimeout : time.Time;
}.

(** A Go call either returns or panics. *)
Inductive Result (A : Type) :=
| Ok (a : A)
| Panic (msg : string).
Arguments Ok {A} a.
Arguments Panic {A} msg.

Definition nil_dereference : string :=
  "invalid memory address or nil pointer dereference".
Definition index_out_of_range : string := "index out of range".

(** What [logFetch] is called with. *)
Inductive LogLine :=
| LogRequest (method url : string)
| LogRetry (d : time.Duration) (e : error)
| LogAbort
| LogStatus (code : Z).

Section brauser.
Context `{Platform}.

(** The calls that leave the package, in the order they happen. *)
Inductive Event :=
| Dispatch (req : http.Request) (res : DoResult)
| Sleep (d : time.Duration)
| Println (l : LogLine)
| ReadAll (b : http.ReadCloser)
| Close (b : http.ReadCloser).

(** The mutable world of a run: the jar objects on the heap, the network,
    the file system, and the trace of calls made so far. *)
Record World := {
  jars : list cookiejar_Jar;
  network : Network;
  files : Files;
  trace : list Event;
}.

Definition emit (e : Event) (st : World) : World :=
  {| jars := jars st; network := network st; files := files st;
     trace := trace st ++ [e] |}.

(** State and panic monad of the package's functions. *)
Definition M (A : Type) : Type := World -> Result A * World.

#[global] Instance M_ret : MRet M := fun _ a st => (Ok a, st).

#[global] Instance M_bind : MBind M := fun _ _ k m st =>
  match m st with
  | (Ok a, st') => k a st'
  | (Panic msg, st') => (Panic msg, st')
  end.

Definition panic {A} (msg : string) : M A := fun st => (Panic msg, st).

(** [l[i]] on a slice. *)
Definition index {A} (l : list A) (i : Z) : M A :=
  if decide (0 <= i) then
    match l !! Z.to_nat i with
    | Some a => mret a
    | None => panic index_out_of_range
    end
  else panic index_out_of_range.

(** [cookiejar.New(nil)] puts the new jar on the heap. *)
Definition cookiejar_New_ : M (option nat * option error) := fun st =>
  match cookiejar_New with
  | (Some j, err) =>
      (Ok (Some (length (jars st)), err),
       {| jars := jars st ++ [j]; network := network st; files := files st;
          trace := trace st |})
  | (None, err) => (Ok (None, err), st)
  end.

(** A method call on the jar behind the interface value [jar]. *)
Definition on_jar {A} (jar : option nat)
    (f : cookiejar_Jar -> A * cookiejar_Jar) : M A := fun st =>
  match jar with
  | None => (Panic nil_dereference, st)
  | Some a =>
      match jars st !! a with
      | None => (Panic nil_dereference, st)
      | Some j =>
          let '(r, j') := f j in
          (Ok r, {| jars := <[a := j']> (jars st); network := network st;
                    files := files st; trace := trace st |})
      end
  end.

(** The contents of the jar a client's [Jar] field points to. *)
Definition jar_of (c : http.Client) (st : World) : option cookiejar_Jar :=
  a ← http.Jar c; jars st !! a.

(** [c.Do(req)] on the client behind the pointer [c]. *)
Definition Do (c : option http.Client) (req : http.Request) : M DoResult := fun st =>
  match c with
  | None => (Panic nil_dereference, st)
  | Some c =>
      let '(res, jar', net') := http_Do c (jar_of c st) req (network st) in
      let js := match http.Jar c, jar' with
                | Some a, Some j' => <[a := j']> (jars st)
                | _, _ => jars st
                end in
      (Ok res, {| jars := js; network := net'; files := files st;
                  trace := trace st ++ [Dispatch req res] |})
  end.

Definition Sleep_ (d : time.Duration) (st : World) : World :=
  {| jars := jars st; network := time_Sleep d (network st); files := files st;
     trace := trace st ++ [Sleep d] |}.

(** [Header.Add(key, value)] *)
Definition Header_Add (h : http.Header) (key value : string) : http.Header :=
  let key := CanonicalMIMEHeaderKey key in
  <[key := (default [] (h !! key) ++ [value])%list]> h.

(** [req.Header.Add(k, p)] *)
Definition req_Header_Add (req : http.Request) (kp : string * string) : http.Request :=
  {| http.Method := http.Method req; http.URL := http.URL req;
     http.Header_ := Header_Add (http.Header_ req) kp.1 kp.2;
     http.Payload := http.Payload req |}.

(** [ioutil.ReadAll] *)
Definition ioutil_ReadAll (b : http.ReadCloser) : bytes * option error :=
  (http.content b, http.fault b).

(** ** brauser.go *)

Definition default_Options : Options :=
  {| Timeout := time.Second * 60;
     TlsHandshakeTimeout := 5 * time.Second;
     DialTimeout := 5 * time.Second;
     Tries := 1;
     Verbose := false |}.

Definition CreateWebClient (opts : list Options) : M WebClient :=
  '(jar, _) ← cookiejar_New_;
  o ← (if decide (Z.of_nat (length opts) ≠ 1) then mret default_Options
       else index opts 0);
  let netTransport :=
    {| http.Dial := {| net.Timeout := DialTimeout o |};
       http.TLSHandshakeTimeout := TlsHandshakeTimeout o |} in
  mret {| cl := Some {| http.Jar := jar; http.Timeout := Timeout o;
                        http.Transport_ := netTransport |};
          options := o;
          lastTimeout := 0 |}.

Definition logFetch (w : WebClient) (s : LogLine) (st : World) : World :=
  if Verbose (options w) then emit (Println s) st else st.

(** What [fetch] returns: [(data, err)]; [None] is the nil slice. *)
Definition Reply : Type := option bytes * option error.

(** Go's [int] is 64 bits wide and [tryCount++] wraps around. *)
Definition int_max : Z := 2 ^ 63 - 1.

Definition wrap_int (z : Z) : Z := (z + 2 ^ 63) mod 2 ^ 64 - 2 ^ 63.

(** The code of [fetch] from the label [retry] on. [tryCount] is only
    incremented below [Tries], where [tryCount++] is exact (lemma
    [tryCount_increment_exact]), so the increment is written [tryCount + 1]. *)
Equations retry (w : WebClient) (req : http.Request) (tryCount : Z) (st : World) :
    Result Reply * World by wf (Z.to_nat (Tries (options w) - tryCount)) lt :=
retry w req tryCount st with Do (cl w) req st => {
  | (Panic msg, st1) => (Panic msg, st1);
  | (Ok (_, Some err), st1) with decide (tryCount < Tries (options w)) => {
      | left _ =>
          retry w req (tryCount + 1)
            (Sleep_ (Timeout (options w))
               (logFetch w (LogRetry (Timeout (options w)) err) st1));
      | right _ => (Ok (None, Some err), logFetch w LogAbort st1) };
  | (Ok (None, None), st1) => (Panic nil_dereference, st1);
  | (Ok (Some resp, None), st1) =>
      let st2 := logFetch w (LogStatus (http.StatusCode resp)) st1 in
      let '(data, err) := ioutil_ReadAll (http.Body resp) in
      (Ok (Some data, err),
       emit (Close (http.Body resp)) (emit (ReadAll (http.Body resp)) st2)) }.
Next Obligation. lia. Qed.

Definition fetch (w : WebClient) (method path : string)
    (params : gmap string string) (payload : option io_Reader) : M Reply :=
  match http_NewRequest method path payload with
  | inr err => mret (None, Some err)
  | inl req =>
      let req := foldl req_Header_Add req (range params) in
      fun st =>
        retry w req 0
          (logFetch w (LogRequest (http.Method req) (URL_String (http.URL req))) st)
  end.

Definition Get (w : WebClient) (path : string) (params : gmap string string) : M Reply :=
  fetch w "GET" path params None.

Definition Post (w : WebClient) (path : string) (params : gmap string string)
    (payload : option io_Reader) : M Reply :=
  fetch w "POST" path params payload.

Definition CustomRequest (w : WebClient) (method path : string)
    (params : gmap string string) (payload : option io_Reader) : M Reply :=
  fetch w method path params payload.

(** [w.cl.Jar]: a nil [w.cl] panics. *)
Definition cl_Jar (w : WebClient) : M (option nat) :=
  match cl w with
  | None => panic nil_dereference
  | Some c => mret (http.Jar c)
  end.

Definition ReadFile (filename : string) : M (bytes + error) := fun st =>
  (Ok (ioutil_ReadFile filename (files st)), st).

Definition WriteFile (filename : string) (data : bytes) (perm : Z) : M (option error) :=
  fun st =>
  let '(err, fs) := ioutil_WriteFile filename data perm (files st) in
  (Ok err, {| jars := jars st; network := network st; files := fs;
              trace := trace st |}).

Definition ExportCookies (w : WebClient) (file site : string) : M (option error) :=
  match url_Parse site with
  | inr err => mret (Some err)
  | inl u =>
      jar ← cl_Jar w;
      cookies ← on_jar jar (Jar_Cookies u);
      match json_Marshal cookies with
      | inr err => mret (Some err)
      | inl data =>
          err ← WriteFile file data 420 (* 0644 *);
          match err with
          | Some err => mret (Some err)
          | None => mret None
          end
      end
  end.

Definition ImportCookies (w : WebClient) (file site : string) : M (option error) :=
  match url_Parse site with
  | inr err => mret (Some err)
  | inl u =>
      d ← ReadFile file;
      match d with
      | inr err => mret (Some err)
      | inl d =>
          match json_Unmarshal d with
          | inr err => mret (Some err)
          | inl cookies =>
              jar ← cl_Jar w;
              on_jar jar (fun j => (tt, Jar_SetCookies u cookies j));;
              mret None
          end
      end
  end.

End brauser.

(** ** unnamed/part_000: the older copy of the package

    Its [Options], [WebClient], [CreateWebClient] and [logFetch] are those of
    brauser.go word for word; it has no cookie export or import, and its
    [fetch] differs after the label [retry]. *)
Module part_000.
Section fetch.
Context `{Platform}.

(** The deferred [resp.Body.Close()] calls run when [fetch] is left, the
    last one registered first. *)
Definition run_deferred (deferred : list http.ReadCloser) (st : World) : World :=
  foldl (fun st b => emit (Close b) st) st deferred.

(** The code of [fetch] from the label [retry] on; [deferred] holds the
    bodies whose [Close] has been deferred so far, the latest first. *)
Equations retry (w : WebClient) (req : http.Request) (tryCount : Z)
    (deferred : list http.ReadCloser) (st : World) :
    Result Reply * World by wf (Z.to_nat (Tries (options w) - tryCount)) lt :=
retry w req tryCount deferred st with Do (cl w) req st => {
  | (Panic msg, st1) => (Panic msg, run_deferred deferred st1);
  | (Ok (None, _), st1) => (Panic nil_dereference, run_deferred deferred st1);
  | (Ok (Some resp, Some err), st1)
      with decide (tryCount < Tries (options w)) => {
      | left _ =>
          retry w req (tryCount + 1) (http.Body resp :: deferred)
            (Sleep_ (Timeout (options w))
               (logFetch w (LogRetry (Timeout (options w)) err)
                  (logFetch w (LogStatus (http.StatusCode resp)) st1)));
      | right _ =>
          (Ok (None, Some err),
           run_deferred (http.Body resp :: deferred)
             (logFetch w (LogStatus (http.StatusCode resp)) st1)) };
  | (Ok (Some resp, None), st1) =>
      let st2 := logFetch w (LogStatus (http.StatusCode resp)) st1 in
      let '(data, err) := ioutil_ReadAll (http.Body resp) in
      (Ok (Some data, err),
       run_deferred (http.Body resp :: deferred)
         (emit (ReadAll (http.Body resp)) st2)) }.
Next Obligation. lia. Qed.

Definition fetch (w : WebClient) (method path : string)
    (params : gmap string string) (payload : option io_Reader) : M Reply :=
  match http_NewRequest method path payload with
  | inr err => mret (None, Some err)
  | inl req =>
      let req := foldl req_Header_Add req (range params) in
      fun st =>
        retry w req 0 []
          (logFetch w (LogRequest (http.Method req) (URL_String (http.URL req))) st)
  end.

End fetch.
End part_000.

(** ** A test double of the platform

    The transport answers from a script: the [n]-th call of [Client.Do] gets
    [script n]. Files are a map from names to contents, the jar is a list of
    cookies tagged with their site, and cookies are serialized one per line
    as [name=value]. *)
Module Stub.
Import Stdlib.Strings.Ascii.

Definition types : Types :=
  {| url_URL := string;
     http_Cookie := bytes * bytes;
     cookiejar_Jar := list (string * (bytes * bytes));
     io_Reader := bytes;
     Network := nat;
     Files := gmap string bytes |}.

Definition Parse (rawurl : string) : string + error :=
  match rawurl with
  | String ":"%char _ => inr "missing protocol scheme"
  | _ => inl rawurl
  end.

Definition NewRequest (method url : string) (body : option bytes) :
    @http.Request types + error :=
  match Parse url with
  | inr err => inr err
  | inl u =>
      inl {| http.Method := if decide (method = "") then "GET" else method;
             http.URL := (u : @url_URL types);
             http.Header_ := ∅;
             http.Payload := (body : option (@io_Reader types)) |}
  end.

Definition upper (c : ascii) : ascii :=
  let n := nat_of_ascii c in
  if (97 <=? n)%nat && (n <=? 122)%nat then ascii_of_nat (n - 32) else c.

Definition lower (c : ascii) : ascii :=
  let n := nat_of_ascii c in
  if (65 <=? n)%nat && (n <=? 90)%nat then ascii_of_nat (n + 32) else c.

(** Upper case at the start and after a hyphen, lower case elsewhere. *)
Fixpoint canonical (up : bool) (s : string) : string :=
  match s with
  | EmptyString => EmptyString
  | String c s' =>
      String (if up then upper c else lower c)
             (canonical (if Ascii.eqb c "-"%char then true else false) s')
  end.

Definition Marshal (cookies : list (bytes * bytes)) : bytes + error :=
  inl (cookies ≫= (fun c => c.1 ++ [Byte.x3d] ++ c.2 ++ [Byte.x0a])%list).

Fixpoint parse_record (line name : bytes) : option (bytes * bytes) :=
  match line with
  | [] => None
  | b :: rest =>
      if Byte.eqb b Byte.x3d then Some (rev name, rest)
      else parse_record rest (b :: name)
  end.

Fixpoint parse (d line : bytes) (acc : list (bytes * bytes)) :
    list (bytes * bytes) + error :=
  match d with
  | [] =>
      match line with
      | [] => inl (rev acc)
      | _ => inr "unexpected end of input"
      end
  | b :: rest =>
      if Byte.eqb b Byte.x0a then
        match parse_record (rev line) [] with
        | Some c => parse rest [] (c :: acc)
        | None => inr "invalid record"
        end
      else parse rest (b :: line) acc
  end.

Definition Unmarshal (d : bytes) : list (bytes * bytes) + error := parse d [] [].

Definition ReadFile_ (filename : string) (fs : gmap string bytes) : bytes + error :=
  match fs !! filename with
  | Some d => inl d
  | None => inr "no such file or directory"
  end.

Definition WriteFile_ (filename : string) (data : bytes) (perm : Z)
    (fs : gmap string bytes) : option error * gmap string bytes :=
  if decide (filename = "") then (Some "no such file or directory", fs)
  else (None, <[filename := data]> fs).

Definition Cookies (u : string) (j : list (string * (bytes * bytes))) :
    list (bytes * bytes) * list (string * (bytes * bytes)) :=
  (map snd (filter (fun e => e.1 = u) j), j).

(** A cookie replaces the one of the same name the jar holds for the site. *)
Definition SetCookies (u : string) (cookies : list (bytes * bytes))
    (j : list (string * (bytes * bytes))) : list (string * (bytes * bytes)) :=
  foldl (fun j c =>
           (List.filter
              (fun e => negb (String.eqb e.1 u &&
                              String.eqb (String.string_of_list_byte e.2.1)
                                         (String.string_of_list_byte c.1))) j ++
            [(u, c)])%list)
    j cookies.

Definition platform (script : nat -> DoResult) : @Platform types :=
  @Build_Platform types
    Parse
    (fun u => u)
    (Some [], None)
    Cookies
    SetCookies
    Marshal
    Unmarshal
    ReadFile_
    WriteFile_
    NewRequest
    (canonical true)
    (fun _ jar _ n => (script n, jar, S n))
    (fun _ n => n)
    map_to_list
    (fun m => reflexivity _).

(** A world with no jar on the heap, no file and nothing traced yet. *)
Definition empty_world : @World types :=
  @Build_World types [] 0%nat ∅ [].

(** The world once [CreateWebClient] has run in [empty_world], and the client
    it returns for the options [o]. *)
Definition world : @World types :=
  @Build_World types [[]] 0%nat ∅ [].

(** A cookie, and the world of [world] with that cookie in the jar. *)
Definition sid : bytes * bytes :=
  (String.list_byte_of_string "sid", String.list_byte_of_string "42").

Definition one_cookie : @World types :=
  @Build_World types [[("https://example.test/", sid)]] 0%nat ∅ [].

(** [one_cookie] after its cookie has been exported to cookies.txt. *)
Definition exported : @World types :=
  @Build_World types [[("https://example.test/", sid)]] 0%nat
    {["cookies.txt" := String.list_byte_of_string "sid=42
"]} [].

Definition client_of (o : Options) : http.Client :=
  {| http.Jar := Some 0%nat;
     http.Timeout := Timeout o;
     http.Transport_ :=
       {| http.Dial := {| net.Timeout := DialTimeout o |};
          http.TLSHandshakeTimeout := TlsHandshakeTimeout o |} |}.

Definition client (o : Options) : WebClient :=
  {| cl := Some (client_of o); options := o; lastTimeout := 0 |}.

(** The client a second [CreateWebClient] returns in [world], and the world
    after it. *)
Definition second_client (o : Options) : WebClient :=
  {| cl := Some {| http.Jar := Some 1%nat;
                   http.Timeout := Timeout o;
                   http.Transport_ :=
                     {| http.Dial := {| net.Timeout := DialTimeout o |};
                        http.TLSHandshakeTimeout := TlsHandshakeTimeout o |} |};
     options := o;
     lastTimeout := 0 |}.

Definition two_jars : @World types :=
  @Build_World types [[]; []] 0%nat ∅ [].

(** The zero [WebClient]. *)
Definition zero_client : WebClient :=
  {| cl := None;
     options := {| Timeout := 0; TlsHandshakeTimeout := 0; DialTimeout := 0;
                   Tries := 0; Verbose := false |};
     lastTimeout := 0 |}.

(** The request [NewRequest] builds for a method and a URL it accepts. *)
Definition request (method url : string) : @http.Request types :=
  @http.Build_Request types method url ∅ None.

Definition with_Tries (n : Z) : Options :=
  {| Timeout := Timeout default_Options;
     TlsHandshakeTimeout := TlsHandshakeTimeout default_Options;
     DialTimeout := DialTimeout default_Options;
     Tries := n;
     Verbose := Verbose default_Options |}.

Definition response (code : Z) (body : string) : http.Response :=
  {| http.StatusCode := code;
     http.Body := {| http.content := String.list_byte_of_string body; http.fault := None |} |}.

(** A response whose body breaks off after [body]. *)
Definition truncated (code : Z) (body : string) (err : error) : http.Response :=
  {| http.StatusCode := code;
     http.Body := {| http.content := String.list_byte_of_string body;
                     http.fault := Some err |} |}.

(** Scripts: a transport that refuses every call, one that answers every
    call with [resp], and one that refuses [k] calls before it does. *)
Definition refusing : nat -> DoResult :=
  fun _ => (None, Some "connection refused").

Definition serving (resp : http.Response) : nat -> DoResult :=
  fun _ => (Some resp, None).

Definition flaky (k : nat) (resp : http.Response) : nat -> DoResult :=
  fun n => if (n <? k)%nat then (None, Some "connection refused")
           else (Some resp, None).

(** A transport that answers [before] to its first [k] calls and [after]
    from then on, and the answer to a refused redirect. *)
Definition switching (k : nat) (before after : DoResult) : nat -> DoResult :=
  fun n => if (n <? k)%nat then before else after.

Definition refused_redirect : DoResult :=
  (Some (response 302 "moved"), Some "stopped after 10 redirects").

End Stub.

(** ** Observing a run *)
Section observations.
Context `{Platform}.

Definition is_log (e : Event) : bool :=
  match e with Println _ => true | _ => false end.

(** The trace without the lines printed by [logFetch]. *)
Definition quiet (t : list Event) : list Event :=
  filter (fun e => is_log e = false) t.

(** What a run from [st] to [st'] added to the trace. *)
Definition since (st st' : World) : list Event :=
  drop (length (trace st)) (trace st').

(** The number of calls of [Client.Do]. *)
Definition attempts (t : list Event) : nat :=
  length (omap (fun e => match e with Dispatch _ r => Some r | _ => None end) t).

(** The durations slept, in order. *)
Definition sleeps (t : list Event) : list time.Duration :=
  omap (fun e => match e with Sleep d => Some d | _ => None end) t.

(** The call came back with a non-nil error. *)
Definition failed (r : DoResult) : Prop := is_Some r.2.

(** Failed attempts on [req], each followed by one sleep of [d]. *)
Definition rounds (req : http.Request) (d : time.Duration) (rs : list DoResult) :
    list Event :=
  rs ≫= (fun r => [Dispatch req r; Sleep d]).

(** The request [fetch] sends for the one [http.NewRequest] built: the loop
    over [params] has added every entry to its header. *)
Definition outgoing (req : http.Request) (params : gmap string string) : http.Request :=
  foldl req_Header_Add req (range params).

(** [t] holds no call of the transport for a request other than [req]. *)
Definition sent_only (req : http.Request) (t : list Event) : Prop :=
  forall r res, Dispatch r res ∈ t -> r = req.

(** A transport that fails whatever it is asked, whenever. *)
Definition always_fails : Prop :=
  forall c jar req n, failed (http_Do c jar req n).1.1.

(** A transport that answers its [i]-th call with [script i], [pos] being
    the number of calls so far. *)
Definition scripted (script : nat -> DoResult) (pos : Network -> nat) : Prop :=
  (forall c jar req n, (http_Do c jar req n).1.1 = script (pos n)) /\
  (forall c jar req n, pos (http_Do c jar req n).2 = S (pos n)) /\
  (forall d n, pos (time_Sleep d n) = pos n).

(** ** The shape of a run of the loop *)

(** The lines printed, in order. *)
Definition logs (t : list Event) : list LogLine :=
  omap (fun e => match e with Println l => Some l | _ => None end) t.

(** What [logFetch] adds to the trace. *)
Definition said (w : WebClient) (s : LogLine) : list Event :=
  if Verbose (options w) then [Println s] else [].

(** A failed call that is retried: the call, the notice, the sleep. *)
Definition failed_round (w : WebClient) (req : http.Request) (r : DoResult) :
    list Event :=
  match r.2 with
  | Some err =>
      Dispatch req r :: said w (LogRetry (Timeout (options w)) err) ++
      [Sleep (Timeout (options w))]
  | None => []
  end.

(** How the loop is left: the last call failed and is not retried, a call
    succeeded, a call came back with neither response nor error, or there
    is no client to call. *)
Inductive Ending :=
| GaveUp (r : DoResult) (err : error)
| Succeeded (resp : http.Response)
| NilNil
| NoClient.

Definition ending_trace (w : WebClient) (req : http.Request) (x : Ending) :
    list Event :=
  match x with
  | GaveUp r _ => Dispatch req r :: said w LogAbort
  | Succeeded resp =>
      Dispatch req (Some resp, None) :: said w (LogStatus (http.StatusCode resp)) ++
      [ReadAll (http.Body resp); Close (http.Body resp)]
  | NilNil => [Dispatch req (None, None)]
  | NoClient => []
  end.

Definition ending_result (x : Ending) : Result Reply :=
  match x with
  | GaveUp _ err => Ok (None, Some err)
  | Succeeded resp =>
      Ok (Some (http.content (http.Body resp)), http.fault (http.Body resp))
  | NilNil | NoClient => Panic nil_dereference
  end.

(** The calls of an ending, without the log lines. *)
Definition ending_calls (req : http.Request) (x : Ending) : list Event :=
  match x with
  | GaveUp r _ => [Dispatch req r]
  | Succeeded resp =>
      [Dispatch req (Some resp, None); ReadAll (http.Body resp);
       Close (http.Body resp)]
  | NilNil => [Dispatch req (None, None)]
  | NoClient => []
  end.

(** The line an ending prints. *)
Definition ending_log (x : Ending) : list LogLine :=
  match x with
  | GaveUp _ _ => [LogAbort]
  | Succeeded resp => [LogStatus (http.StatusCode resp)]
  | NilNil | NoClient => []
  end.

(** The retry notices for failed calls. *)
Definition notices (d : time.Duration) (rs : list DoResult) : list LogLine :=
  rs ≫= (fun r => match r.2 with Some err => [LogRetry d err] | None => [] end).

(** A run of the loop from [tryCount] in [st] consists of the failed rounds
    [rs] and the ending [x]. *)
Definition run_of (w : WebClient) (req : http.Request) (tryCount : Z) (st : World)
    (rs : list DoResult) (x : Ending) : Prop :=
  (retry w req tryCount st).1 = ending_result x /\
  trace (retry w req tryCount st).2 =
    (trace st ++ (rs ≫= failed_round w req) ++ ending_trace w req x)%list /\
  Forall failed rs /\
  (length rs <= Z.to_nat (Tries (options w) - tryCount))%nat /\
  match x with
  | GaveUp r err =>
      r.2 = Some err /\ length rs = Z.to_nat (Tries (options w) - tryCount)
  | NoClient => rs = []
  | Succeeded _ | NilNil => True
  end /\
  (x = NoClient <-> cl w = None).

(** Two worlds that differ at most in the lines printed. *)
Definition same_apart_from_log (st1 st2 : World) : Prop :=
  jars st1 = jars st2 /\ network st1 = network st2 /\ files st1 = files st2 /\
  quiet (trace st1) = quiet (trace st2).

(** The jar objects other than the one at address [a], and the file
    system, are in [st'] as they are in [st]. *)
Definition only_jar_changed (a : option nat) (st st' : World) : Prop :=
  files st' = files st /\
  length (jars st') = length (jars st) /\
  forall a', a <> Some a' -> jars st' !! a' = jars st !! a'.

(** The bodies of the responses among the results [rs], in order. *)
Definition bodies (rs : list DoResult) : list http.ReadCloser :=
  omap (fun r => http.Body <$> r.1) rs.

(** The call came back with a response and an error, as [Client.Do] does
    when a redirect is refused. *)
Definition failed_with_response (r : DoResult) : Prop :=
  is_Some r.1 /\ is_Some r.2.

(** The client with logging switched to [b]. *)
Definition set_Verbose (b : bool) (w : WebClient) : WebClient :=
  {| cl := cl w;
     options := {| Timeout := Timeout (options w);
                   TlsHandshakeTimeout := TlsHandshakeTimeout (options w);
                   DialTimeout := DialTimeout (options w);
                   Tries := Tries (options w);
                   Verbose := b |};
     lastTimeout := lastTimeout w |}.

End observations.

(** * Properties *)

(** [tryCount++] never wraps in the loop: it runs under [tryCount < Tries],
    and [Tries] is an [int]. *)
Lemma tryCount_increment_exact (tryCount tries : Z) :
  - 2 ^ 63 <= tryCount -> tryCount < tries -> tries <= int_max ->
  wrap_int (tryCount + 1) = tryCount + 1.
Proof.
  unfold wrap_int, int_max. intros Hlo Hlt Hhi.
  rewrite Z.mod_small by lia. lia.
Qed.

(** ** The loop, one step at a time *)
Section steps.
Context `{Platform}.
Implicit Types (w : WebClient) (req : http.Request) (st : World).

Lemma Do_Some c req st :
  let res := (http_Do c (jar_of c st) req (network st)).1.1 in
  exists st1,
    Do (Some c) req st = (Ok res, st1) /\
    network st1 = (http_Do c (jar_of c st) req (network st)).2 /\
    files st1 = files st /\
    trace st1 = (trace st ++ [Dispatch req res])%list.
Proof.
  unfold Do. destruct (http_Do _ _ _ _) as [[res jar'] net'].
  simpl. eexists. repeat split; reflexivity.
Qed.

Lemma retry_failed w req tryCount st resp err st1 :
  Do (cl w) req st = (Ok (resp, Some err), st1) ->
  retry w req tryCount st =
    if decide (tryCount < Tries (options w)) then
      retry w req (tryCount + 1)
        (Sleep_ (Timeout (options w))
           (logFetch w (LogRetry (Timeout (options w)) err) st1))
    else (Ok (None, Some err), logFetch w LogAbort st1).
Proof.
  intros HDo. rewrite retry_equation_1, HDo. simp retry.
  destruct (decide _); simp retry; reflexivity.
Qed.

Lemma retry_succeeded w req tryCount st resp st1 :
  Do (cl w) req st = (Ok (Some resp, None), st1) ->
  retry w req tryCount st =
    (Ok (Some (http.content (http.Body resp)), http.fault (http.Body resp)),
     emit (Close (http.Body resp))
       (emit (ReadAll (http.Body resp))
          (logFetch w (LogStatus (http.StatusCode resp)) st1))).
Proof.
  intros HDo. rewrite retry_equation_1, HDo. simp retry. reflexivity.
Qed.

Lemma retry_nil_nil w req tryCount st st1 :
  Do (cl w) req st = (Ok (None, None), st1) ->
  retry w req tryCount st = (Panic nil_dereference, st1).
Proof.
  intros HDo. rewrite retry_equation_1, HDo. simp retry. reflexivity.
Qed.

Lemma retry_panicked w req tryCount st msg st1 :
  Do (cl w) req st = (Panic msg, st1) ->
  retry w req tryCount st = (Panic msg, st1).
Proof.
  intros HDo. rewrite retry_equation_1, HDo. simp retry. reflexivity.
Qed.

(** [logFetch] adds log lines only. *)
Lemma logFetch_spec w s st :
  exists lg,
    trace (logFetch w s st) = (trace st ++ lg)%list /\ quiet lg = [] /\
    network (logFetch w s st) = network st /\
    jars (logFetch w s st) = jars st /\
    files (logFetch w s st) = files st.
Proof.
  unfold logFetch. destruct (Verbose (options w)).
  - exists [Println s]. repeat split; reflexivity.
  - exists []. rewrite app_nil_r. repeat split; reflexivity.
Qed.

Lemma quiet_app t1 t2 : quiet (t1 ++ t2) = (quiet t1 ++ quiet t2)%list.
Proof. apply filter_app. Qed.

Lemma since_app st st' t : trace st' = (trace st ++ t)%list -> since st st' = t.
Proof. intros Heq. unfold since. rewrite Heq. apply drop_app_length. Qed.

Lemma quiet_idemp t : quiet (quiet t) = quiet t.
Proof.
  unfold quiet. induction t as [|e t IH]; [reflexivity|].
  rewrite filter_cons. destruct (decide _) as [He|He].
  - rewrite filter_cons, decide_True by exact He. by rewrite IH.
  - exact IH.
Qed.

Lemma attempts_quiet t : attempts (quiet t) = attempts t.
Proof.
  unfold attempts, quiet. induction t as [|e t IH]; [reflexivity|].
  rewrite filter_cons. destruct e; simpl; first [exact IH | f_equal; exact IH].
Qed.

Lemma sleeps_quiet t : sleeps (quiet t) = sleeps t.
Proof.
  unfold sleeps, quiet. induction t as [|e t IH]; [reflexivity|].
  rewrite filter_cons. destruct e; simpl; first [exact IH | f_equal; exact IH].
Qed.

Lemma attempts_app t1 t2 : attempts (t1 ++ t2) = (attempts t1 + attempts t2)%nat.
Proof. unfold attempts. by rewrite omap_app, length_app. Qed.

Lemma sleeps_app t1 t2 : sleeps (t1 ++ t2) = (sleeps t1 ++ sleeps t2)%list.
Proof. apply omap_app. Qed.

Lemma rounds_cons req d r rs :
  rounds req d (r :: rs) = Dispatch req r :: Sleep d :: rounds req d rs.
Proof. reflexivity. Qed.

Lemma attempts_rounds req d rs : attempts (rounds req d rs) = length rs.
Proof.
  induction rs as [|r rs IH]; [reflexivity|].
  rewrite rounds_cons. unfold attempts in *. simpl. f_equal. exact IH.
Qed.

Lemma sleeps_rounds req d rs : sleeps (rounds req d rs) = replicate (length rs) d.
Proof.
  induction rs as [|r rs IH]; [reflexivity|].
  rewrite rounds_cons. unfold sleeps in *. simpl. f_equal. exact IH.
Qed.

End steps.

(** ** Runs of the loop *)
Section loop.
Context `{Platform}.
Implicit Types (w : WebClient) (req : http.Request) (st : World).

Lemma Do_cases w c req st :
  cl w = Some c ->
  exists res st1,
    Do (cl w) req st = (Ok res, st1) /\
    res = (http_Do c (jar_of c st) req (network st)).1.1 /\
    network st1 = (http_Do c (jar_of c st) req (network st)).2 /\
    trace st1 = (trace st ++ [Dispatch req res])%list.
Proof.
  intros ->. destruct (Do_Some c req st) as (st1 & HDo & Hnet & _ & Htr).
  eexists _, st1. repeat split; eassumption.
Qed.

Lemma retry_always_fails w c req :
  cl w = Some c -> always_fails ->
  forall (n : nat) tryCount st,
    Tries (options w) - tryCount = Z.of_nat n ->
    exists rs r e st' tr,
      retry w req tryCount st = (Ok (None, Some e), st') /\
      r.2 = Some e /\ length rs = n /\
      trace st' = (trace st ++ tr)%list /\
      quiet tr = (rounds req (Timeout (options w)) rs ++ [Dispatch req r])%list.
Proof.
  intros Hc Hfail n. induction n as [|n IH]; intros t st Hn.
  all: destruct (Do_cases w c req st Hc) as ([resp err] & st1 & HDo & Hres & Hnet & Htr).
  all: destruct (Hfail c (jar_of c st) req (network st)) as [e He].
  all: rewrite <- Hres in He; simpl in He; subst err.
  all: rewrite (retry_failed _ _ _ _ _ _ _ HDo).
  - rewrite decide_False by lia.
    destruct (logFetch_spec w LogAbort st1) as (lg & Hlg & Hq & _).
    exists [], (resp, Some e), e, (logFetch w LogAbort st1),
      ([Dispatch req (resp, Some e)] ++ lg)%list.
    repeat split.
    + rewrite Hlg, Htr, <- app_assoc. reflexivity.
    + rewrite quiet_app, Hq. reflexivity.
  - rewrite decide_True by lia.
    destruct (logFetch_spec w (LogRetry (Timeout (options w)) e) st1)
      as (lg & Hlg & Hq & _).
    destruct (IH (t + 1)
                (Sleep_ (Timeout (options w))
                   (logFetch w (LogRetry (Timeout (options w)) e) st1)))
      as (rs & r & e' & st' & tr & Hrun & Hr & Hlen & Htr' & Hquiet); [lia|].
    exists ((resp, Some e) :: rs), r, e', st',
      ([Dispatch req (resp, Some e)] ++ lg ++ [Sleep (Timeout (options w))] ++ tr)%list.
    repeat split; [exact Hrun | exact Hr | simpl; by rewrite Hlen | |].
    + rewrite Htr'. simpl. rewrite Hlg, Htr, <- !app_assoc. reflexivity.
    + rewrite !quiet_app, Hq, Hquiet. reflexivity.
Qed.

Lemma retry_scripted w c req script pos :
  cl w = Some c -> scripted script pos ->
  forall (k : nat) tryCount st resp,
    (forall i, (i < k)%nat -> failed (script (pos (network st) + i)%nat)) ->
    script (pos (network st) + k)%nat = (Some resp, None) ->
    tryCount + Z.of_nat k <= Tries (options w) ->
    exists st' tr,
      retry w req tryCount st =
        (Ok (Some (http.content (http.Body resp)), http.fault (http.Body resp)), st') /\
      trace st' = (trace st ++ tr)%list /\
      quiet tr =
        (rounds req (Timeout (options w)) (script <$> seq (pos (network st)) k) ++
         [Dispatch req (Some resp, None); ReadAll (http.Body resp);
          Close (http.Body resp)])%list.
Proof.
  intros Hc (Hscript & Hnext & Hsleep) k.
  induction k as [|k IH]; intros t st resp Hfail Hok Hbudget.
  all: destruct (Do_cases w c req st Hc) as (res & st1 & HDo & Hres & Hnet & Htr).
  all: rewrite Hscript in Hres; apply (f_equal pos) in Hnet; rewrite Hnext in Hnet.
  - rewrite Nat.add_0_r in Hok. rewrite Hok in Hres. subst res.
    rewrite (retry_succeeded _ _ _ _ _ _ HDo).
    destruct (logFetch_spec w (LogStatus (http.StatusCode resp)) st1)
      as (lg & Hlg & Hq & _).
    eexists _, ([Dispatch req (Some resp, None)] ++ lg ++
                [ReadAll (http.Body resp); Close (http.Body resp)])%list.
    split; [reflexivity|]. split.
    + simpl. rewrite Hlg, Htr, <- !app_assoc. reflexivity.
    + rewrite !quiet_app, Hq. reflexivity.
  - destruct (Hfail 0%nat ltac:(lia)) as [e He].
    rewrite Nat.add_0_r, <- Hres in He. destruct res as [resp0 err].
    simpl in He. subst err.
    rewrite (retry_failed _ _ _ _ _ _ _ HDo), decide_True by lia.
    destruct (logFetch_spec w (LogRetry (Timeout (options w)) e) st1)
      as (lg & Hlg & Hq & Hnet' & _).
    set (st2 := Sleep_ (Timeout (options w))
                  (logFetch w (LogRetry (Timeout (options w)) e) st1)).
    assert (Hpos : pos (network st2) = S (pos (network st))).
    { unfold st2. simpl. by rewrite Hsleep, Hnet', Hnet. }
    destruct (IH (t + 1) st2 resp) as (st' & tr & Hrun & Htr' & Hquiet).
    { intros i Hi. rewrite Hpos. replace (S (pos (network st)) + i)%nat
        with (pos (network st) + S i)%nat by lia. apply Hfail. lia. }
    { rewrite Hpos. by replace (S (pos (network st)) + k)%nat
        with (pos (network st) + S k)%nat by lia. }
    { lia. }
    exists st', ([Dispatch req (resp0, Some e)] ++ lg ++
                 [Sleep (Timeout (options w))] ++ tr)%list.
    split; [exact Hrun|]. split.
    + rewrite Htr'. unfold st2. simpl. rewrite Hlg, Htr, <- !app_assoc. reflexivity.
    + rewrite !quiet_app, Hq, Hquiet, Hpos. simpl. rewrite Hres. reflexivity.
Qed.


Lemma counts_of_quiet t req d rs tl :
  quiet t = (rounds req d rs ++ tl)%list ->
  attempts t = (length rs + attempts tl)%nat /\
  sleeps t = (replicate (length rs) d ++ sleeps tl)%list.
Proof.
  intros Hq. rewrite <- attempts_quiet, <- sleeps_quiet, Hq.
  by rewrite attempts_app, sleeps_app, attempts_rounds, sleeps_rounds.
Qed.

(** The request that [fetch] hands to the transport: the one built by
    [http.NewRequest], with the entries of [params] added to its header. *)
Lemma fetch_built w method path params payload req st :
  http_NewRequest method path payload = inl req ->
  fetch w method path params payload st =
    retry w (outgoing req params) 0
      (logFetch w (LogRequest (http.Method (outgoing req params))
                     (URL_String (http.URL (outgoing req params)))) st).
Proof. unfold fetch. intros ->. reflexivity. Qed.

Lemma fetch_scripted w c method path params payload req st script pos k resp :
  cl w = Some c ->
  http_NewRequest method path payload = inl req ->
  scripted script pos ->
  (forall i, (i < k)%nat -> failed (script (pos (network st) + i)%nat)) ->
  script (pos (network st) + k)%nat = (Some resp, None) ->
  Z.of_nat k <= Tries (options w) ->
  exists st',
    fetch w method path params payload st =
      (Ok (Some (http.content (http.Body resp)), http.fault (http.Body resp)), st') /\
    quiet (since st st') =
      (rounds (outgoing req params) (Timeout (options w))
         (script <$> seq (pos (network st)) k) ++
       [Dispatch (outgoing req params) (Some resp, None);
        ReadAll (http.Body resp); Close (http.Body resp)])%list.
Proof.
  intros Hc Hreq Hs Hfail Hok Hk. rewrite (fetch_built _ _ _ _ _ _ _ Hreq).
  set (req' := outgoing req params).
  set (st0 := logFetch w (LogRequest (http.Method req') (URL_String (http.URL req'))) st).
  destruct (logFetch_spec w (LogRequest (http.Method req') (URL_String (http.URL req'))) st)
    as (lg & Hlg & Hq & Hnet & _).
  fold st0 in Hlg, Hnet.
  destruct (retry_scripted w c req' script pos Hc Hs k 0 st0 resp)
    as (st' & tr & Hrun & Htr & Hquiet).
  { by rewrite Hnet. }
  { by rewrite Hnet. }
  { lia. }
  exists st'. split; [exact Hrun|].
  rewrite (since_app st st' (lg ++ tr)).
  - by rewrite quiet_app, Hq, Hquiet, Hnet.
  - by rewrite Htr, Hlg, <- app_assoc.
Qed.

End loop.

(** ** The fetch loop *)

(** C1. With [Tries = N >= 0] and a transport that fails every call, [fetch]
    calls the transport exactly [N + 1] times, sleeps exactly [N] times, each
    time for [Timeout] and each time between two calls, and returns no data
    together with the error of the last call. *)
Theorem fetch_permanent_failure `{Platform} (w : WebClient) (c : http.Client)
    (method path : string) (params : gmap string string)
    (payload : option io_Reader) (req : http.Request) (st : World) :
  cl w = Some c ->
  http_NewRequest method path payload = inl req ->
  always_fails ->
  0 <= Tries (options w) ->
  exists (rs : list DoResult) (r : DoResult) (e : error) (st' : World),
    fetch w method path params payload st = (Ok (None, Some e), st') /\
    quiet (since st st') =
      (rounds (outgoing req params) (Timeout (options w)) rs ++
       [Dispatch (outgoing req params) r])%list /\
    r.2 = Some e /\
    Z.of_nat (length rs) = Tries (options w) /\
    Z.of_nat (attempts (since st st')) = Tries (options w) + 1 /\
    sleeps (since st st') =
      replicate (Z.to_nat (Tries (options w))) (Timeout (options w)).
Proof.
  intros Hc Hreq Hfail HN. rewrite (fetch_built _ _ _ _ _ _ _ Hreq).
  set (req' := outgoing req params).
  set (st0 := logFetch w (LogRequest (http.Method req') (URL_String (http.URL req'))) st).
  destruct (logFetch_spec w (LogRequest (http.Method req') (URL_String (http.URL req'))) st)
    as (lg & Hlg & Hq & _).
  fold st0 in Hlg.
  destruct (retry_always_fails w c req' Hc Hfail (Z.to_nat (Tries (options w))) 0 st0)
    as (rs & r & e & st' & tr & Hrun & Hr & Hlen & Htr & Hquiet); [lia|].
  assert (Hsince : quiet (since st st') =
    (rounds req' (Timeout (options w)) rs ++ [Dispatch req' r])%list).
  { rewrite (since_app st st' (lg ++ tr)).
    - by rewrite quiet_app, Hq, Hquiet.
    - by rewrite Htr, Hlg, <- app_assoc. }
  destruct (counts_of_quiet _ _ _ _ _ Hsince) as [Hatt Hsl].
  exists rs, r, e, st'. repeat split; [exact Hrun | exact Hsince | exact Hr | lia | |].
  - rewrite Hatt. unfold attempts. simpl. lia.
  - rewrite Hsl, Hlen. unfold sleeps. simpl. by rewrite app_nil_r.
Qed.

Lemma fetch_permanent_failure_witness :
  (cl (Stub.client default_Options) = Some (Stub.client_of default_Options) /\
   @http_NewRequest _ (Stub.platform Stub.refusing) "GET" "https://example.test/" None =
     inl (Stub.request "GET" "https://example.test/") /\
   @always_fails _ (Stub.platform Stub.refusing) /\
   0 <= Tries (options (Stub.client default_Options))) /\
  exists rs r e st',
    @fetch _ (Stub.platform Stub.refusing) (Stub.client default_Options)
      "GET" "https://example.test/" ∅ None Stub.world = (Ok (None, Some e), st') /\
    quiet (since Stub.world st') =
      (rounds (@outgoing _ (Stub.platform Stub.refusing)
                 (Stub.request "GET" "https://example.test/") ∅)
         (Timeout default_Options) rs ++
       [Dispatch (@outgoing _ (Stub.platform Stub.refusing)
                    (Stub.request "GET" "https://example.test/") ∅) r])%list /\
    r.2 = Some e /\
    Z.of_nat (length rs) = 1 /\
    Z.of_nat (attempts (since Stub.world st')) = 1 + 1 /\
    sleeps (since Stub.world st') = replicate (Z.to_nat 1) (Timeout default_Options).
Proof.
  assert (Hc : cl (Stub.client default_Options) = Some (Stub.client_of default_Options))
    by reflexivity.
  assert (Hreq : @http_NewRequest _ (Stub.platform Stub.refusing)
                   "GET" "https://example.test/" None =
                 inl (Stub.request "GET" "https://example.test/")) by reflexivity.
  assert (Hfail : @always_fails _ (Stub.platform Stub.refusing))
    by (intros ? ? ? ?; eexists; reflexivity).
  assert (HN : 0 <= Tries (options (Stub.client default_Options)))
    by (vm_compute; discriminate).
  split; [auto|].
  exact (@fetch_permanent_failure _ (Stub.platform Stub.refusing)
           (Stub.client default_Options) _ "GET" "https://example.test/" ∅ None _
           Stub.world Hc Hreq Hfail HN).
Defined.

(** C2. When the first call of the transport succeeds, [fetch] returns the
    whole body of the response and a nil error, whatever [Tries] is; with the
    default options, a GET answered by status 200 and body hello returns
    the bytes of hello and nil. *)
Theorem fetch_first_attempt_succeeds :
  (forall (T : Types) (P : @Platform T) (w : WebClient) (c : http.Client)
      (method path : string) (params : gmap string string)
      (payload : option io_Reader) (req : http.Request) (st : World)
      (resp : http.Response),
      cl w = Some c ->
      http_NewRequest method path payload = inl req ->
      (http_Do c (jar_of c st) (outgoing req params) (network st)).1.1 =
        (Some resp, None) ->
      http.fault (http.Body resp) = None ->
      exists st',
        fetch w method path params payload st =
          (Ok (Some (http.content (http.Body resp)), None), st') /\
        quiet (since st st') =
          [Dispatch (outgoing req params) (Some resp, None);
           ReadAll (http.Body resp); Close (http.Body resp)]) /\
  (@CreateWebClient _ (Stub.platform (Stub.serving (Stub.response 200 "hello"))) []
      Stub.empty_world = (Ok (Stub.client default_Options), Stub.world) /\
   exists st',
     @Get _ (Stub.platform (Stub.serving (Stub.response 200 "hello")))
       (Stub.client default_Options) "https://example.test/ok" ∅ Stub.world =
       (Ok (Some (String.list_byte_of_string "hello"), None), st')).
Proof.
  split.
  - intros T P w c method path params payload req st resp Hc Hreq Hdo Hbody.
    rewrite (fetch_built _ _ _ _ _ _ _ Hreq).
    set (req' := outgoing req params) in *.
    set (st0 := logFetch w (LogRequest (http.Method req') (URL_String (http.URL req'))) st).
    destruct (logFetch_spec w (LogRequest (http.Method req') (URL_String (http.URL req'))) st)
      as (lg & Hlg & Hq & Hnet & Hjars & _).
    fold st0 in Hlg, Hnet, Hjars.
    destruct (Do_cases w c req' st0 Hc) as (res & st1 & HDo & Hres & _ & Htr).
    assert (Hjar : jar_of c st0 = jar_of c st) by (unfold jar_of; by rewrite Hjars).
    rewrite Hjar, Hnet, Hdo in Hres. subst res.
    rewrite (retry_succeeded _ _ _ _ _ _ HDo), Hbody.
    destruct (logFetch_spec w (LogStatus (http.StatusCode resp)) st1)
      as (lg1 & Hlg1 & Hq1 & _).
    eexists. split; [reflexivity|].
    rewrite (since_app st _ (lg ++ [Dispatch req' (Some resp, None)] ++ lg1 ++
               [ReadAll (http.Body resp); Close (http.Body resp)])).
    + by rewrite !quiet_app, Hq, Hq1.
    + simpl. rewrite Hlg1, Htr, Hlg, <- !app_assoc. reflexivity.
  - split; [reflexivity|]. eexists. vm_compute. reflexivity.
Qed.

Lemma fetch_first_attempt_succeeds_witness :
  (cl (Stub.client (Stub.with_Tries 7)) = Some (Stub.client_of (Stub.with_Tries 7)) /\
   @http_NewRequest _ (Stub.platform (Stub.serving (Stub.response 200 "hello")))
     "GET" "https://example.test/ok" None =
     inl (Stub.request "GET" "https://example.test/ok") /\
   http.fault (http.Body (Stub.response 200 "hello")) = None) /\
  exists st',
    @fetch _ (Stub.platform (Stub.serving (Stub.response 200 "hello")))
      (Stub.client (Stub.with_Tries 7)) "GET" "https://example.test/ok" ∅ None
      Stub.world =
      (Ok (Some (http.content (http.Body (Stub.response 200 "hello"))), None), st') /\
    quiet (since Stub.world st') =
      [Dispatch (@outgoing _ (Stub.platform (Stub.serving (Stub.response 200 "hello")))
                   (Stub.request "GET" "https://example.test/ok") ∅)
         (Some (Stub.response 200 "hello"), None);
       ReadAll (http.Body (Stub.response 200 "hello"));
       Close (http.Body (Stub.response 200 "hello"))].
Proof.
  split; [repeat split; reflexivity|].
  apply (proj1 fetch_first_attempt_succeeds _
           (Stub.platform (Stub.serving (Stub.response 200 "hello")))
           (Stub.client (Stub.with_Tries 7)) (Stub.client_of (Stub.with_Tries 7))
           "GET" "https://example.test/ok" ∅ None
           (Stub.request "GET" "https://example.test/ok") Stub.world
           (Stub.response 200 "hello")); reflexivity.
Defined.

(** C3. When the transport fails [k] calls and then succeeds, with [k] within
    the budget [Tries], [fetch] stops at that first success and returns the
    body of that response and a nil error, after [k + 1] calls and [k]
    sleeps; with [Tries = 2] and a transport that fails twice and then
    answers ok, it returns the bytes of ok and nil after exactly 3 calls. *)
Theorem fetch_succeeds_after_failures :
  (forall (T : Types) (P : @Platform T) (w : WebClient) (c : http.Client)
      (method path : string) (params : gmap string string)
      (payload : option io_Reader) (req : http.Request) (st : World)
      (script : nat -> DoResult) (pos : Network -> nat) (k : nat)
      (resp : http.Response),
      cl w = Some c ->
      http_NewRequest method path payload = inl req ->
      scripted script pos ->
      (forall i, (i < k)%nat -> failed (script (pos (network st) + i)%nat)) ->
      script (pos (network st) + k)%nat = (Some resp, None) ->
      http.fault (http.Body resp) = None ->
      Z.of_nat k <= Tries (options w) ->
      exists st',
        fetch w method path params payload st =
          (Ok (Some (http.content (http.Body resp)), None), st') /\
        quiet (since st st') =
          (rounds (outgoing req params) (Timeout (options w))
             (script <$> seq (pos (network st)) k) ++
           [Dispatch (outgoing req params) (Some resp, None);
            ReadAll (http.Body resp); Close (http.Body resp)])%list /\
        attempts (since st st') = S k /\
        sleeps (since st st') = replicate k (Timeout (options w))) /\
  (exists st',
     @fetch _ (Stub.platform (Stub.flaky 2 (Stub.response 200 "ok")))
       (Stub.client (Stub.with_Tries 2)) "GET" "https://example.test/" ∅ None
       Stub.world =
       (Ok (Some (String.list_byte_of_string "ok"), None), st') /\
     attempts (since Stub.world st') = 3%nat).
Proof.
  split.
  - intros T P w c method path params payload req st script pos k resp
      Hc Hreq Hs Hfail Hok Hbody Hk.
    destruct (fetch_scripted w c method path params payload req st script pos k resp
                Hc Hreq Hs Hfail Hok Hk) as (st' & Hrun & Hquiet).
    rewrite Hbody in Hrun.
    destruct (counts_of_quiet _ _ _ _ _ Hquiet) as [Hatt Hsl].
    rewrite length_fmap, length_seq in Hatt, Hsl.
    exists st'. repeat split; [exact Hrun | exact Hquiet | |].
    + rewrite Hatt. unfold attempts. simpl. lia.
    + rewrite Hsl. unfold sleeps. simpl. by rewrite app_nil_r.
  - eexists. split; vm_compute; reflexivity.
Qed.

Lemma fetch_succeeds_after_failures_witness :
  (cl (Stub.client (Stub.with_Tries 2)) = Some (Stub.client_of (Stub.with_Tries 2)) /\
   @http_NewRequest _ (Stub.platform (Stub.flaky 2 (Stub.response 200 "ok")))
     "GET" "https://example.test/" None =
     inl (Stub.request "GET" "https://example.test/") /\
   @scripted _ (Stub.platform (Stub.flaky 2 (Stub.response 200 "ok")))
     (Stub.flaky 2 (Stub.response 200 "ok")) (fun n => n) /\
   (forall i, (i < 2)%nat ->
      failed (Stub.flaky 2 (Stub.response 200 "ok") (0 + i)%nat)) /\
   Stub.flaky 2 (Stub.response 200 "ok") (0 + 2)%nat =
     (Some (Stub.response 200 "ok"), None) /\
   http.fault (http.Body (Stub.response 200 "ok")) = None /\
   Z.of_nat 2 <= Tries (Stub.with_Tries 2)) /\
  exists st',
    @fetch _ (Stub.platform (Stub.flaky 2 (Stub.response 200 "ok")))
      (Stub.client (Stub.with_Tries 2)) "GET" "https://example.test/" ∅ None
      Stub.world =
      (Ok (Some (http.content (http.Body (Stub.response 200 "ok"))), None), st') /\
    quiet (since Stub.world st') =
      (rounds (@outgoing _ (Stub.platform (Stub.flaky 2 (Stub.response 200 "ok")))
                 (Stub.request "GET" "https://example.test/") ∅)
         (Timeout (Stub.with_Tries 2))
         (Stub.flaky 2 (Stub.response 200 "ok") <$> seq 0 2) ++
       [Dispatch (@outgoing _ (Stub.platform (Stub.flaky 2 (Stub.response 200 "ok")))
                    (Stub.request "GET" "https://example.test/") ∅)
          (Some (Stub.response 200 "ok"), None);
        ReadAll (http.Body (Stub.response 200 "ok"));
        Close (http.Body (Stub.response 200 "ok"))])%list /\
    attempts (since Stub.world st') = 3%nat /\
    sleeps (since Stub.world st') = replicate 2 (Timeout (Stub.with_Tries 2)).
Proof.
  assert (Hs : @scripted _ (Stub.platform (Stub.flaky 2 (Stub.response 200 "ok")))
                 (Stub.flaky 2 (Stub.response 200 "ok")) (fun n => n))
    by (repeat split; reflexivity).
  assert (Hfail : forall i, (i < 2)%nat ->
            failed (Stub.flaky 2 (Stub.response 200 "ok") (0 + i)%nat)).
  { intros i Hi. unfold Stub.flaky, failed. simpl.
    destruct (Nat.ltb_spec i 2); [eexists; reflexivity | lia]. }
  assert (HN : Z.of_nat 2 <= Tries (Stub.with_Tries 2)) by (vm_compute; discriminate).
  split; [repeat split; solve [reflexivity | apply Hs | exact Hfail | exact HN]|].
  exact (proj1 fetch_succeeds_after_failures _
           (Stub.platform (Stub.flaky 2 (Stub.response 200 "ok")))
           (Stub.client (Stub.with_Tries 2)) (Stub.client_of (Stub.with_Tries 2))
           "GET" "https://example.test/" ∅ None
           (Stub.request "GET" "https://example.test/") Stub.world
           (Stub.flaky 2 (Stub.response 200 "ok")) (fun n => n) 2%nat
           (Stub.response 200 "ok")
           eq_refl eq_refl Hs Hfail eq_refl eq_refl HN).
Defined.

(** C5. When a call of the transport succeeds and reading the body of its
    response fails, [fetch] returns that read error at once: the read is the
    last thing it does besides closing the body, with no further call of the
    transport and no sleep, however much of the budget [Tries] is left. *)
Theorem fetch_read_error `{Platform} (w : WebClient) (c : http.Client)
    (method path : string) (params : gmap string string)
    (payload : option io_Reader) (req : http.Request) (st : World)
    (script : nat -> DoResult) (pos : Network -> nat) (k : nat)
    (resp : http.Response) (e : error) :
  cl w = Some c ->
  http_NewRequest method path payload = inl req ->
  scripted script pos ->
  (forall i, (i < k)%nat -> failed (script (pos (network st) + i)%nat)) ->
  script (pos (network st) + k)%nat = (Some resp, None) ->
  http.fault (http.Body resp) = Some e ->
  Z.of_nat k <= Tries (options w) ->
  exists st',
    fetch w method path params payload st =
      (Ok (Some (http.content (http.Body resp)), Some e), st') /\
    quiet (since st st') =
      (rounds (outgoing req params) (Timeout (options w))
         (script <$> seq (pos (network st)) k) ++
       [Dispatch (outgoing req params) (Some resp, None);
        ReadAll (http.Body resp); Close (http.Body resp)])%list /\
    attempts (since st st') = S k /\
    sleeps (since st st') = replicate k (Timeout (options w)).
Proof.
  intros Hc Hreq Hs Hfail Hok Hbody Hk.
  destruct (fetch_scripted w c method path params payload req st script pos k resp
              Hc Hreq Hs Hfail Hok Hk) as (st' & Hrun & Hquiet).
  rewrite Hbody in Hrun.
  destruct (counts_of_quiet _ _ _ _ _ Hquiet) as [Hatt Hsl].
  rewrite length_fmap, length_seq in Hatt, Hsl.
  exists st'. repeat split; [exact Hrun | exact Hquiet | |].
  - rewrite Hatt. unfold attempts. simpl. lia.
  - rewrite Hsl. unfold sleeps. simpl. by rewrite app_nil_r.
Qed.

Lemma fetch_read_error_witness :
  (cl (Stub.client (Stub.with_Tries 5)) = Some (Stub.client_of (Stub.with_Tries 5)) /\
   @http_NewRequest _
     (Stub.platform (Stub.flaky 1 (Stub.truncated 200 "hel" "unexpected EOF")))
     "GET" "https://example.test/" None =
     inl (Stub.request "GET" "https://example.test/") /\
   @scripted _ (Stub.platform (Stub.flaky 1 (Stub.truncated 200 "hel" "unexpected EOF")))
     (Stub.flaky 1 (Stub.truncated 200 "hel" "unexpected EOF")) (fun n => n) /\
   (forall i, (i < 1)%nat ->
      failed (Stub.flaky 1 (Stub.truncated 200 "hel" "unexpected EOF") (0 + i)%nat)) /\
   Stub.flaky 1 (Stub.truncated 200 "hel" "unexpected EOF") (0 + 1)%nat =
     (Some (Stub.truncated 200 "hel" "unexpected EOF"), None) /\
   http.fault (http.Body (Stub.truncated 200 "hel" "unexpected EOF")) =
     Some "unexpected EOF" /\
   Z.of_nat 1 <= Tries (Stub.with_Tries 5)) /\
  exists st',
    @fetch _ (Stub.platform (Stub.flaky 1 (Stub.truncated 200 "hel" "unexpected EOF")))
      (Stub.client (Stub.with_Tries 5)) "GET" "https://example.test/" ∅ None
      Stub.world =
      (Ok (Some (String.list_byte_of_string "hel"), Some "unexpected EOF"), st') /\
    attempts (since Stub.world st') = 2%nat /\
    sleeps (since Stub.world st') = [Timeout (Stub.with_Tries 5)].
Proof.
  assert (Hs : @scripted _
                 (Stub.platform (Stub.flaky 1 (Stub.truncated 200 "hel" "unexpected EOF")))
                 (Stub.flaky 1 (Stub.truncated 200 "hel" "unexpected EOF")) (fun n => n))
    by (repeat split; reflexivity).
  assert (Hfail : forall i, (i < 1)%nat ->
            failed (Stub.flaky 1 (Stub.truncated 200 "hel" "unexpected EOF") (0 + i)%nat)).
  { intros i Hi. unfold Stub.flaky, failed. simpl.
    destruct (Nat.ltb_spec i 1); [eexists; reflexivity | lia]. }
  assert (HN : Z.of_nat 1 <= Tries (Stub.with_Tries 5)) by (vm_compute; discriminate).
  split; [repeat split; solve [reflexivity | apply Hs | exact Hfail | exact HN]|].
  destruct (@fetch_read_error _
           (Stub.platform (Stub.flaky 1 (Stub.truncated 200 "hel" "unexpected EOF")))
           (Stub.client (Stub.with_Tries 5)) (Stub.client_of (Stub.with_Tries 5))
           "GET" "https://example.test/" ∅ None
           (Stub.request "GET" "https://example.test/") Stub.world
           (Stub.flaky 1 (Stub.truncated 200 "hel" "unexpected EOF")) (fun n => n) 1%nat
           (Stub.truncated 200 "hel" "unexpected EOF") "unexpected EOF"
           eq_refl eq_refl Hs Hfail eq_refl eq_refl HN)
    as (st' & Hrun & _ & Hatt & Hsl).
  exists st'. repeat split; assumption.
Defined.

(** ** The older copy of the loop *)
Section part_000_steps.
Context `{Platform}.

Lemma part_000_retry_nil w req tryCount deferred st err st1 :
  Do (cl w) req st = (Ok (None, err), st1) ->
  part_000.retry w req tryCount deferred st =
    (Panic nil_dereference, part_000.run_deferred deferred st1).
Proof.
  intros HDo. rewrite part_000.retry_equation_1, HDo. simp retry. reflexivity.
Qed.

End part_000_steps.

(** C4. In the [fetch] of part_000 a failed call of the transport, which
    hands back a nil response and an error, makes [fetch] dereference the
    absent response (for the deferred close of its body and for its status
    code) before it looks at the error: it panics with a nil dereference
    right after the call, whatever [Tries] is. The [fetch] of brauser.go
    looks at the error first and on such a call goes to its error branch
    without touching the response. *)
Theorem part_000_fetch_dereferences_nil `{Platform} (w : WebClient) (c : http.Client)
    (method path : string) (params : gmap string string)
    (payload : option io_Reader) (req : http.Request) (st : World) (e : error) :
  cl w = Some c ->
  http_NewRequest method path payload = inl req ->
  (http_Do c (jar_of c st) (outgoing req params) (network st)).1.1 = (None, Some e) ->
  (exists st',
     part_000.fetch w method path params payload st = (Panic nil_dereference, st') /\
     quiet (since st st') = [Dispatch (outgoing req params) (None, Some e)]) /\
  (forall tryCount st0 st1,
     Do (cl w) (outgoing req params) st0 = (Ok (None, Some e), st1) ->
     retry w (outgoing req params) tryCount st0 =
       if decide (tryCount < Tries (options w)) then
         retry w (outgoing req params) (tryCount + 1)
           (Sleep_ (Timeout (options w))
              (logFetch w (LogRetry (Timeout (options w)) e) st1))
       else (Ok (None, Some e), logFetch w LogAbort st1)) /\
  (Tries (options w) <= 0 ->
   exists st',
     fetch w method path params payload st = (Ok (None, Some e), st') /\
     quiet (since st st') = [Dispatch (outgoing req params) (None, Some e)]).
Proof.
  intros Hc Hreq Hdo.
  set (req' := outgoing req params) in *.
  set (st0 := logFetch w (LogRequest (http.Method req') (URL_String (http.URL req'))) st).
  destruct (logFetch_spec w (LogRequest (http.Method req') (URL_String (http.URL req'))) st)
    as (lg & Hlg & Hq & Hnet & Hjars & _).
  fold st0 in Hlg, Hnet, Hjars.
  destruct (Do_cases w c req' st0 Hc) as (res & st1 & HDo & Hres & _ & Htr).
  assert (Hjar : jar_of c st0 = jar_of c st) by (unfold jar_of; by rewrite Hjars).
  rewrite Hjar, Hnet, Hdo in Hres. subst res.
  split; [|split].
  - unfold part_000.fetch. rewrite Hreq. fold (outgoing req params). fold req'. fold st0.
    rewrite (part_000_retry_nil _ _ _ _ _ _ _ HDo). simpl.
    eexists. split; [reflexivity|].
    rewrite (since_app st st1 (lg ++ [Dispatch req' (None, Some e)])).
    + by rewrite quiet_app, Hq.
    + by rewrite Htr, Hlg, <- app_assoc.
  - intros t s0 s1 Hs. apply (retry_failed _ _ _ _ _ _ _ Hs).
  - intros HN. rewrite (fetch_built _ _ _ _ _ _ _ Hreq). fold req'. fold st0.
    rewrite (retry_failed _ _ _ _ _ _ _ HDo), decide_False by lia.
    destruct (logFetch_spec w LogAbort st1) as (lg1 & Hlg1 & Hq1 & _).
    eexists. split; [reflexivity|].
    rewrite (since_app st _ (lg ++ [Dispatch req' (None, Some e)] ++ lg1)).
    + by rewrite !quiet_app, Hq, Hq1.
    + by rewrite Hlg1, Htr, Hlg, <- !app_assoc.
Qed.

Lemma part_000_fetch_dereferences_nil_witness :
  (cl (Stub.client default_Options) = Some (Stub.client_of default_Options) /\
   @http_NewRequest _ (Stub.platform Stub.refusing) "GET" "https://example.test/" None =
     inl (Stub.request "GET" "https://example.test/") /\
   Stub.refusing 0%nat = (None, Some "connection refused")) /\
  exists st',
    @part_000.fetch _ (Stub.platform Stub.refusing) (Stub.client default_Options)
      "GET" "https://example.test/" ∅ None Stub.world =
      (Panic nil_dereference, st') /\
    quiet (since Stub.world st') =
      [Dispatch (@outgoing _ (Stub.platform Stub.refusing)
                   (Stub.request "GET" "https://example.test/") ∅)
         (None, Some "connection refused")].
Proof.
  split; [repeat split; reflexivity|].
  exact (proj1 (@part_000_fetch_dereferences_nil _ (Stub.platform Stub.refusing)
           (Stub.client default_Options) (Stub.client_of default_Options)
           "GET" "https://example.test/" ∅ None
           (Stub.request "GET" "https://example.test/") Stub.world "connection refused"
           eq_refl eq_refl eq_refl)).
Defined.

(** ** The constructor *)
Section constructor.
Context `{Platform}.

Lemma cookiejar_New_returns (st : World) :
  exists jar err st', cookiejar_New_ st = (Ok (jar, err), st').
Proof.
  unfold cookiejar_New_. destruct cookiejar_New as [[j|] err]; eauto.
Qed.

(** What [CreateWebClient] returns for the options [o] it settles on. *)
Lemma CreateWebClient_cases (opts : list Options) (st : World) :
  exists jar st',
    (Z.of_nat (length opts) ≠ 1 ->
     CreateWebClient opts st =
       (Ok {| cl := Some {| http.Jar := jar;
                            http.Timeout := Timeout default_Options;
                            http.Transport_ :=
                              {| http.Dial := {| net.Timeout := DialTimeout default_Options |};
                                 http.TLSHandshakeTimeout :=
                                   TlsHandshakeTimeout default_Options |} |};
              options := default_Options; lastTimeout := 0 |}, st')) /\
    (forall o, opts = [o] ->
     CreateWebClient opts st =
       (Ok {| cl := Some {| http.Jar := jar;
                            http.Timeout := Timeout o;
                            http.Transport_ :=
                              {| http.Dial := {| net.Timeout := DialTimeout o |};
                                 http.TLSHandshakeTimeout := TlsHandshakeTimeout o |} |};
              options := o; lastTimeout := 0 |}, st')).
Proof.
  destruct (cookiejar_New_returns st) as (jar & err & st' & Hjar).
  exists jar, st'. split.
  - intros Hlen. unfold CreateWebClient, mbind, M_bind at 1. rewrite Hjar.
    rewrite decide_True by exact Hlen. reflexivity.
  - intros o ->. unfold CreateWebClient, mbind, M_bind at 1. rewrite Hjar.
    reflexivity.
Qed.

End constructor.

(** C6. [CreateWebClient] never fails: whatever the arguments, it returns a
    [WebClient]; called with no options, the client carries the defaults
    Timeout 60s, TlsHandshakeTimeout 5s, DialTimeout 5s, Tries 1 and Verbose
    false. *)
Theorem CreateWebClient_never_fails `{Platform} (opts : list Options) (st : World) :
  (exists w st', CreateWebClient opts st = (Ok w, st')) /\
  (exists w st',
     CreateWebClient [] st = (Ok w, st') /\
     Timeout (options w) = 60 * time.Second /\
     TlsHandshakeTimeout (options w) = 5 * time.Second /\
     DialTimeout (options w) = 5 * time.Second /\
     Tries (options w) = 1 /\
     Verbose (options w) = false /\
     time.Second = 1000000000 * time.Nanosecond).
Proof.
  split.
  - destruct (CreateWebClient_cases opts st) as (jar & st' & Hdef & Hone).
    destruct opts as [|o [|o' opts]].
    + eexists _, st'. apply Hdef. simpl. lia.
    + eexists _, st'. apply (Hone o). reflexivity.
    + eexists _, st'. apply Hdef. simpl length. lia.
  - destruct (CreateWebClient_cases [] st) as (jar & st' & Hdef & _).
    eexists _, st'. split; [apply Hdef; simpl; lia|].
    repeat split; reflexivity.
Qed.

(** C10. [CreateWebClient] applies the defaults whenever it is not handed
    exactly one [Options]: two or more are all dropped, and the client is the
    one built from no options at all. *)
Theorem CreateWebClient_defaults_unless_one `{Platform} (opts : list Options)
    (st : World) :
  length opts ≠ 1%nat ->
  CreateWebClient opts st = CreateWebClient [] st /\
  exists w st',
    CreateWebClient opts st = (Ok w, st') /\ options w = default_Options.
Proof.
  intros Hlen.
  destruct (CreateWebClient_cases opts st) as (jar & st' & Hdef & _).
  destruct (CreateWebClient_cases [] st) as (jar0 & st0 & Hdef0 & _).
  assert (Hopts : CreateWebClient opts st = CreateWebClient [] st).
  { unfold CreateWebClient, mbind, M_bind at 1 3.
    destruct (cookiejar_New_ st) as [[[j e]|msg] s]; [|reflexivity].
    rewrite !decide_True by (simpl; lia). reflexivity. }
  split; [exact Hopts|].
  eexists _, st'. split; [apply Hdef; lia | reflexivity].
Qed.

Lemma CreateWebClient_defaults_unless_one_witness :
  length [Stub.with_Tries 5; Stub.with_Tries 9] ≠ 1%nat /\
  (@CreateWebClient _ (Stub.platform Stub.refusing)
     [Stub.with_Tries 5; Stub.with_Tries 9] Stub.empty_world =
   @CreateWebClient _ (Stub.platform Stub.refusing) [] Stub.empty_world /\
   exists w st',
     @CreateWebClient _ (Stub.platform Stub.refusing)
       [Stub.with_Tries 5; Stub.with_Tries 9] Stub.empty_world = (Ok w, st') /\
     options w = default_Options).
Proof.
  assert (Hlen : length [Stub.with_Tries 5; Stub.with_Tries 9] ≠ 1%nat)
    by (simpl; lia).
  split; [exact Hlen|].
  exact (@CreateWebClient_defaults_unless_one _ (Stub.platform Stub.refusing)
           [Stub.with_Tries 5; Stub.with_Tries 9] Stub.empty_world Hlen).
Defined.

(** ** Cookie import and export *)

(** C8. [ImportCookies] returns an error whenever the site URL does not
    parse, the file cannot be read, or its contents do not deserialize to
    cookie records; and whenever it returns an error the world, and so the
    cookie jar, is exactly as it was: no cookie has been installed. *)
Theorem ImportCookies_error_leaves_jar `{Platform} (w : WebClient)
    (file site : string) (st : World) :
  ((exists e, url_Parse site = inr e) \/
   (exists e, ioutil_ReadFile file (files st) = inr e) \/
   (exists d e, ioutil_ReadFile file (files st) = inl d /\ json_Unmarshal d = inr e) ->
   exists e, ImportCookies w file site st = (Ok (Some e), st)) /\
  (forall e st', ImportCookies w file site st = (Ok (Some e), st') ->
     st' = st /\ jars st' = jars st).
Proof.
  unfold ImportCookies, ReadFile, cl_Jar, on_jar, mbind, M_bind, mret, M_ret, panic.
  split.
  - intros Hbad. destruct (url_Parse site) as [u|e0] eqn:Hu; [|eauto].
    destruct (ioutil_ReadFile file (files st)) as [d|e1] eqn:Hd; [|eauto].
    destruct (json_Unmarshal d) as [cookies|e2] eqn:Hc; [|eauto].
    destruct Hbad as [[e He]|[[e He]|(d' & e & Hd' & He)]]; congruence.
  - intros e st'. destruct (url_Parse site) as [u|e0].
    2: { intros [= <- <-]. done. }
    destruct (ioutil_ReadFile file (files st)) as [d|e1].
    2: { intros [= <- <-]. done. }
    destruct (json_Unmarshal d) as [cookies|e2].
    2: { intros [= <- <-]. done. }
    destruct (cl w) as [c|]; [|discriminate].
    destruct (http.Jar c) as [a|]; [|discriminate].
    destruct (jars st !! a); discriminate.
Qed.

Lemma ImportCookies_error_leaves_jar_witness :
  ((exists e, @url_Parse _ (Stub.platform Stub.refusing) "https://example.test/" = inr e) \/
   (exists e, @ioutil_ReadFile _ (Stub.platform Stub.refusing) "cookies.json"
                (files Stub.world) = inr e) \/
   (exists d e, @ioutil_ReadFile _ (Stub.platform Stub.refusing) "cookies.json"
                  (files Stub.world) = inl d /\
                @json_Unmarshal _ (Stub.platform Stub.refusing) d = inr e)) /\
  exists e,
    @ImportCookies _ (Stub.platform Stub.refusing) (Stub.client default_Options)
      "cookies.json" "https://example.test/" Stub.world = (Ok (Some e), Stub.world).
Proof.
  assert (Hbad :
    (exists e, @url_Parse _ (Stub.platform Stub.refusing) "https://example.test/" = inr e) \/
    (exists e, @ioutil_ReadFile _ (Stub.platform Stub.refusing) "cookies.json"
                 (files Stub.world) = inr e) \/
    (exists d e, @ioutil_ReadFile _ (Stub.platform Stub.refusing) "cookies.json"
                   (files Stub.world) = inl d /\
                 @json_Unmarshal _ (Stub.platform Stub.refusing) d = inr e)).
  { right. left. eexists. reflexivity. }
  split; [exact Hbad|].
  exact (proj1 (@ImportCookies_error_leaves_jar _ (Stub.platform Stub.refusing)
                  (Stub.client default_Options) "cookies.json"
                  "https://example.test/" Stub.world) Hbad).
Defined.

(** ** Request headers *)
Section headers.
Context `{Platform}.

Lemma Header_Add_lookup (h : http.Header) (key value c : string) :
  default [] (Header_Add h key value !! c) =
    (default [] (h !! c) ++
     if decide (CanonicalMIMEHeaderKey key = c) then [value] else [])%list.
Proof.
  unfold Header_Add. destruct (decide _) as [<-|Hne].
  - by rewrite lookup_insert_eq.
  - by rewrite lookup_insert_ne, app_nil_r.
Qed.

Lemma foldl_Header_Add (l : list (string * string)) (req : http.Request) (c : string) :
  default [] (http.Header_ (foldl req_Header_Add req l) !! c) =
    (default [] (http.Header_ req !! c) ++
     (snd <$> filter (fun kp => CanonicalMIMEHeaderKey kp.1 = c) l))%list.
Proof.
  revert req. induction l as [|[k p] l IH]; intros req.
  - by rewrite app_nil_r.
  - simpl foldl. rewrite IH. simpl. rewrite Header_Add_lookup, filter_cons. simpl.
    destruct (decide _); by rewrite <- app_assoc.
Qed.

(** [t] holds no call of the transport for a request other than [req]. *)
Lemma sent_only_app req (t1 t2 : list Event) :
  sent_only req t1 -> sent_only req t2 -> sent_only req (t1 ++ t2).
Proof. intros H1 H2 r res [?|?]%elem_of_app; eauto. Qed.

Lemma sent_only_log req (lg : list Event) : quiet lg = [] -> sent_only req lg.
Proof.
  intros Hq r res Hin.
  assert (Hin' : Dispatch r res ∈ quiet lg)
    by (apply list_elem_of_filter; split; [reflexivity | exact Hin]).
  rewrite Hq in Hin'. by apply elem_of_nil in Hin'.
Qed.

Lemma sent_only_others req (t : list Event) :
  Forall (fun ev => match ev with Dispatch _ _ => False | _ => True end) t ->
  sent_only req t.
Proof.
  intros Hall r res Hin. rewrite Forall_forall in Hall.
  destruct (Hall _ Hin).
Qed.

Lemma Do_sent c req st :
  exists tr, trace (Do c req st).2 = (trace st ++ tr)%list /\ sent_only req tr.
Proof.
  unfold Do. destruct c as [c|].
  - destruct (http_Do _ _ _ _) as [[res jar'] net']. simpl.
    exists [Dispatch req res]. split; [reflexivity|].
    by intros r res' [= -> _]%list_elem_of_singleton.
  - exists []. split; [by rewrite app_nil_r|]. by intros r res ?%elem_of_nil.
Qed.

(** Every call of the loop hands the transport the same request. *)
Lemma retry_sent (w : WebClient) (req : http.Request) (n : nat) :
  forall tryCount st,
    (Z.to_nat (Tries (options w) - tryCount) <= n)%nat ->
    exists tr,
      trace (retry w req tryCount st).2 = (trace st ++ tr)%list /\
      sent_only req tr.
Proof.
  induction n as [|n IH]; intros t st Hn.
  all: destruct (Do_sent (cl w) req st) as (tr1 & Htr1 & Hreq1).
  all: destruct (Do (cl w) req st) as [[[resp [e|]]|msg] st1] eqn:HDo;
    simpl in Htr1.
  all: try (rewrite (retry_panicked _ _ _ _ _ _ HDo); by exists tr1).
  all: try (rewrite (retry_failed _ _ _ _ _ _ _ HDo);
            destruct (decide (t < Tries (options w))) as [Hlt|Hge]; [try lia|]).
  all: try (destruct (logFetch_spec w LogAbort st1) as (lg & Hlg & Hq & _);
            exists (tr1 ++ lg)%list;
            split; [simpl; by rewrite Hlg, Htr1, <- app_assoc|];
            by apply sent_only_app, sent_only_log).
  all: try (destruct resp as [resp|];
            [|rewrite (retry_nil_nil _ _ _ _ _ HDo); by exists tr1];
            rewrite (retry_succeeded _ _ _ _ _ _ HDo);
            destruct (logFetch_spec w (LogStatus (http.StatusCode resp)) st1)
              as (lg & Hlg & Hq & _);
            exists (tr1 ++ lg ++ [ReadAll (http.Body resp); Close (http.Body resp)])%list;
            split; [simpl; by rewrite Hlg, Htr1, <- !app_assoc|];
            apply sent_only_app; [done|]; apply sent_only_app;
            [by apply sent_only_log | apply sent_only_others; by repeat constructor]).
  destruct (logFetch_spec w (LogRetry (Timeout (options w)) e) st1)
    as (lg & Hlg & Hq & _).
  destruct (IH (t + 1) (Sleep_ (Timeout (options w))
                         (logFetch w (LogRetry (Timeout (options w)) e) st1)))
    as (tr & Htr & Hreq); [lia|].
  exists (tr1 ++ lg ++ [Sleep (Timeout (options w))] ++ tr)%list. split.
  - rewrite Htr. simpl. by rewrite Hlg, Htr1, <- !app_assoc.
  - apply sent_only_app; [done|]. apply sent_only_app; [by apply sent_only_log|].
    apply sent_only_app; [apply sent_only_others; by repeat constructor | done].
Qed.

End headers.

Section first_dispatch.
Context `{Platform}.

(** With a client behind the pointer, the loop calls the transport at once. *)
Lemma retry_first_dispatch (w : WebClient) (c : http.Client) (req : http.Request)
    (tryCount : Z) (st : World) :
  cl w = Some c ->
  exists res tr,
    trace (retry w req tryCount st).2 = (trace st ++ Dispatch req res :: tr)%list.
Proof.
  intros Hc.
  destruct (Do_cases w c req st Hc) as ([resp err] & st1 & HDo & _ & _ & Htr).
  exists (resp, err). destruct err as [e|].
  - rewrite (retry_failed _ _ _ _ _ _ _ HDo). destruct (decide _).
    + destruct (retry_sent w req (Z.to_nat (Tries (options w) - (tryCount + 1)))
                  (tryCount + 1)
                  (Sleep_ (Timeout (options w))
                     (logFetch w (LogRetry (Timeout (options w)) e) st1)))
        as (tr & Htr' & _); [lia|].
      destruct (logFetch_spec w (LogRetry (Timeout (options w)) e) st1)
        as (lg & Hlg & _).
      exists (lg ++ [Sleep (Timeout (options w))] ++ tr)%list.
      rewrite Htr'. simpl. by rewrite Hlg, Htr, <- !app_assoc.
    + destruct (logFetch_spec w LogAbort st1) as (lg & Hlg & _).
      exists lg. simpl. by rewrite Hlg, Htr, <- app_assoc.
  - destruct resp as [resp|].
    + rewrite (retry_succeeded _ _ _ _ _ _ HDo).
      destruct (logFetch_spec w (LogStatus (http.StatusCode resp)) st1)
        as (lg & Hlg & _).
      exists (lg ++ [ReadAll (http.Body resp); Close (http.Body resp)])%list.
      simpl. by rewrite Hlg, Htr, <- !app_assoc.
    + rewrite (retry_nil_nil _ _ _ _ _ HDo). exists []. simpl. by rewrite Htr.
Qed.

End first_dispatch.

(** C9. Every entry of [params] is added to the header of the request that
    [fetch] sends: under each canonical key the header holds what the request
    held before, followed by the values of all entries with that key, none
    replaced and none dropped; so the values of entries whose keys fall
    together all reach the transport, although the map [params] itself holds
    one value per key. *)
Theorem fetch_adds_every_header `{Platform} (w : WebClient)
    (method path : string) (params : gmap string string)
    (payload : option io_Reader) (req : http.Request) (st : World) :
  http_NewRequest method path payload = inl req ->
  (forall r res,
     Dispatch r res ∈ since st (fetch w method path params payload st).2 ->
     (forall c,
        default [] (http.Header_ r !! c) =
          (default [] (http.Header_ req !! c) ++
           (snd <$> filter (fun kp => CanonicalMIMEHeaderKey kp.1 = c)
                      (range params)))%list) /\
     (forall k p, params !! k = Some p ->
        p ∈ default [] (http.Header_ r !! CanonicalMIMEHeaderKey k)) /\
     (forall c,
        length (default [] (http.Header_ r !! c)) =
          (length (default [] (http.Header_ req !! c)) +
           length (filter (fun kp => CanonicalMIMEHeaderKey kp.1 = c)
                     (map_to_list params)))%nat)) /\
  (forall k p1 p2, params !! k = Some p1 -> params !! k = Some p2 -> p1 = p2) /\
  (forall c, cl w = Some c ->
     exists res,
       Dispatch (outgoing req params) res ∈
         since st (fetch w method path params payload st).2).
Proof.
  intros Hreq. rewrite (fetch_built _ _ _ _ _ _ _ Hreq).
  set (req' := outgoing req params).
  set (st0 := logFetch w (LogRequest (http.Method req') (URL_String (http.URL req'))) st).
  destruct (logFetch_spec w (LogRequest (http.Method req') (URL_String (http.URL req'))) st)
    as (lg & Hlg & Hq & _).
  fold st0 in Hlg.
  split; [|split].
  - destruct (retry_sent w req' (Z.to_nat (Tries (options w) - 0)) 0 st0)
      as (tr & Htr & Hsent); [lia|].
    rewrite (since_app st _ (lg ++ tr)) by (by rewrite Htr, Hlg, <- app_assoc).
    intros r res Hin.
    assert (r = req') as ->
      by (eapply sent_only_app; [by apply sent_only_log | exact Hsent | exact Hin]).
    assert (Hhdr : forall c,
      default [] (http.Header_ req' !! c) =
        (default [] (http.Header_ req !! c) ++
         (snd <$> filter (fun kp => CanonicalMIMEHeaderKey kp.1 = c)
                    (range params)))%list)
      by (intros c; apply foldl_Header_Add).
    split; [exact Hhdr|]. split.
    + intros k p Hkp. rewrite Hhdr. apply elem_of_app. right.
      apply (list_elem_of_fmap_2 snd _ (k, p)).
      apply list_elem_of_filter. split; [reflexivity|].
      rewrite range_perm. by apply elem_of_map_to_list.
    + intros c. rewrite Hhdr, length_app, length_fmap.
      f_equal. apply Permutation_length. by rewrite range_perm.
  - intros k p1 p2 H1 H2. congruence.
  - intros c Hc.
    destruct (retry_first_dispatch w c req' 0 st0 Hc) as (res & tr & Htr).
    exists res.
    rewrite (since_app st _ (lg ++ Dispatch req' res :: tr))
      by (by rewrite Htr, Hlg, <- app_assoc).
    apply elem_of_app. right. apply elem_of_cons. by left.
Qed.

Lemma fetch_adds_every_header_witness :
  @http_NewRequest _ (Stub.platform Stub.refusing) "GET" "https://example.test/" None =
    inl (Stub.request "GET" "https://example.test/") /\
  exists r res,
    Dispatch r res ∈
      since Stub.world
        (@fetch _ (Stub.platform Stub.refusing) (Stub.client default_Options)
           "GET" "https://example.test/" {["x-token" := "a"; "X-Token" := "b"]}
           None Stub.world).2 /\
    "a" ∈ default [] (http.Header_ r !! "X-Token") /\
    "b" ∈ default [] (http.Header_ r !! "X-Token").
Proof.
  split; [reflexivity|].
  destruct (@fetch_adds_every_header _ (Stub.platform Stub.refusing)
              (Stub.client default_Options) "GET" "https://example.test/"
              {["x-token" := "a"; "X-Token" := "b"]} None
              (Stub.request "GET" "https://example.test/") Stub.world eq_refl)
    as (Hall & _ & Hsent).
  destruct (Hsent _ eq_refl) as [res Hin].
  destruct (Hall _ _ Hin) as (_ & Hmem & _).
  eexists _, res. split; [exact Hin|]. split.
  - exact (Hmem "x-token" "a" eq_refl).
  - exact (Hmem "X-Token" "b" eq_refl).
Defined.

(** Two entries whose keys fall together under one canonical key: both
    values are in the header of the request the stub transport receives. *)
Example headers_with_one_canonical_key :
  default [] (http.Header_
                (@outgoing _ (Stub.platform Stub.refusing)
                   (Stub.request "GET" "https://example.test/")
                   {["x-token" := "a"; "X-Token" := "b"]}) !! "X-Token")
    ≡ₚ ["a"; "b"].
Proof. vm_compute. reflexivity. Qed.

(** ** Export followed by import *)

(** X21. What the package itself contributes to a round trip: when the
    export succeeds and the file system hands back the file as written, the
    import installs, for the same site, the cookies that deserializing the
    serialized answer of [Jar.Cookies] yields. Whether the jar then answers
    as before is decided by cookiejar and encoding/json alone. *)
Lemma ExportCookies_then_ImportCookies `{Platform} (w : WebClient) (c : http.Client)
    (a : nat) (j : cookiejar_Jar) (file site : string) (u : url_URL) (st : World)
    (data : bytes) (cookies' : list http_Cookie) :
  cl w = Some c -> http.Jar c = Some a -> jars st !! a = Some j ->
  url_Parse site = inl u ->
  json_Marshal (Jar_Cookies u j).1 = inl data ->
  (ioutil_WriteFile file data 420 (files st)).1 = None ->
  ioutil_ReadFile file (ioutil_WriteFile file data 420 (files st)).2 = inl data ->
  json_Unmarshal data = inl cookies' ->
  exists st1 st2,
    ExportCookies w file site st = (Ok None, st1) /\
    ImportCookies w file site st1 = (Ok None, st2) /\
    jars st2 !! a = Some (Jar_SetCookies u cookies' (Jar_Cookies u j).2) /\
    trace st2 = trace st.
Proof.
  intros Hc Ha Hj Hu Hm Hw Hr Hd.
  unfold ExportCookies, ImportCookies, ReadFile, WriteFile, cl_Jar, on_jar,
    mbind, M_bind, mret, M_ret, panic.
  rewrite Hu, Hc, Ha, Hj.
  destruct (Jar_Cookies u j) as [cookies j1]. simpl in Hm. rewrite Hm. simpl.
  destruct (ioutil_WriteFile file data 420 (files st)) as [err fs]. simpl in Hw, Hr.
  subst err. eexists _, _. split; [reflexivity|]. simpl. rewrite Hr, Hd.
  assert (Ha' : (a < length (jars st))%nat) by (by eapply lookup_lt_Some).
  cbn [jars network files trace].
  rewrite list_lookup_insert_eq by exact Ha'. cbn [jars network files trace].
  split; [reflexivity|]. split; [|reflexivity].
  cbn [jars]. rewrite list_lookup_insert_eq; [reflexivity|]. by rewrite length_insert.
Qed.

(** On the stub the conditions are met: a jar holding one cookie for the
    site is exported to a file of one line and imported again. *)
Example stub_export_import :
  exists st1 st2,
    @ExportCookies _ (Stub.platform Stub.refusing) (Stub.client default_Options)
      "cookies.txt" "https://example.test/" Stub.one_cookie = (Ok None, st1) /\
    @ImportCookies _ (Stub.platform Stub.refusing) (Stub.client default_Options)
      "cookies.txt" "https://example.test/" st1 = (Ok None, st2) /\
    files st1 !! "cookies.txt" = Some (String.list_byte_of_string "sid=42
") /\
    jars st2 = [[("https://example.test/", Stub.sid)]].
Proof. eexists _, _. repeat split; vm_compute; reflexivity. Qed.

(** * Further properties of the package *)

(** ** Every run of the loop *)
Section runs.
Context `{Platform}.
Implicit Types (w : WebClient) (req : http.Request) (st : World).

Lemma logFetch_trace w s st :
  trace (logFetch w s st) = (trace st ++ said w s)%list /\
  network (logFetch w s st) = network st /\
  jars (logFetch w s st) = jars st /\
  files (logFetch w s st) = files st.
Proof.
  unfold logFetch, said. destruct (Verbose (options w)); simpl;
    rewrite ?app_nil_r; done.
Qed.

Lemma Do_None req st : Do None req st = (Panic nil_dereference, st).
Proof. reflexivity. Qed.

Lemma retry_run_step w req tryCount st :
  (forall st', tryCount < Tries (options w) ->
     exists rs x, run_of w req (tryCount + 1) st' rs x) ->
  exists rs x, run_of w req tryCount st rs x.
Proof.
  intros Hnext. unfold run_of. destruct (cl w) as [c|] eqn:Hc.
  2: { exists [], NoClient.
       rewrite (retry_panicked w req tryCount st nil_dereference st)
         by (by rewrite Hc).
       simpl. rewrite app_nil_r. split_and!; [done | done | constructor | lia | done | done]. }
  destruct (Do_cases w c req st Hc) as ([resp err] & st1 & HDo & _ & _ & Htr).
  destruct err as [e|]; [|destruct resp as [resp|]].
  - rewrite (retry_failed _ _ _ _ _ _ _ HDo).
    destruct (decide (tryCount < Tries (options w))) as [Hlt|Hge].
    + destruct (Hnext (Sleep_ (Timeout (options w))
                         (logFetch w (LogRetry (Timeout (options w)) e) st1)) Hlt)
        as (rs & x & Hres & Htr' & Hall & Hlen & Hx & Hno).
      destruct (logFetch_trace w (LogRetry (Timeout (options w)) e) st1) as (Hlg & _).
      exists ((resp, Some e) :: rs), x. split_and!.
      * exact Hres.
      * rewrite Htr'. simpl. rewrite Hlg, Htr. unfold failed_round at 2. simpl.
        by rewrite <- !app_assoc.
      * constructor; [by eexists | exact Hall].
      * simpl. lia.
      * destruct x as [r err| | |]; [|done|done|].
        -- destruct Hx as [Hr Hl]. split; [exact Hr|]. simpl. lia.
        -- destruct Hno as [Hno _]. specialize (Hno eq_refl). congruence.
      * rewrite <- Hc. exact Hno.
    + exists [], (GaveUp (resp, Some e) e).
      destruct (logFetch_trace w LogAbort st1) as (Hlg & _).
      simpl. rewrite Hlg, Htr, <- !app_assoc.
      split_and!; [done | done | constructor | lia | done | lia | done].
  - exists [], (Succeeded resp). rewrite (retry_succeeded _ _ _ _ _ _ HDo).
    destruct (logFetch_trace w (LogStatus (http.StatusCode resp)) st1) as (Hlg & _).
    simpl. rewrite Hlg, Htr, <- !app_assoc.
    split_and!; [done | done | constructor | lia | done | done].
  - exists [], NilNil. rewrite (retry_nil_nil _ _ _ _ _ HDo).
    simpl. rewrite Htr.
    split_and!; [done | done | constructor | lia | done | done].
Qed.

(** The loop is a number of failed rounds followed by one ending. *)
Lemma retry_run w req (n : nat) :
  forall tryCount st,
    (Z.to_nat (Tries (options w) - tryCount) <= n)%nat ->
    exists rs x, run_of w req tryCount st rs x.
Proof.
  induction n as [|n IH]; intros t st Hn; apply retry_run_step; intros st' Hlt.
  - lia.
  - apply IH. lia.
Qed.

(** *** Reading a run *)

Lemma logs_app t1 t2 : logs (t1 ++ t2) = (logs t1 ++ logs t2)%list.
Proof. apply omap_app. Qed.

Lemma said_observed w s :
  quiet (said w s) = [] /\ attempts (said w s) = 0%nat /\ sleeps (said w s) = [] /\
  logs (said w s) = if Verbose (options w) then [s] else [].
Proof. unfold said. by destruct (Verbose (options w)). Qed.

Lemma failed_rounds_observed w req rs :
  Forall failed rs ->
  quiet (rs ≫= failed_round w req) = rounds req (Timeout (options w)) rs /\
  attempts (rs ≫= failed_round w req) = length rs /\
  sleeps (rs ≫= failed_round w req) = replicate (length rs) (Timeout (options w)) /\
  logs (rs ≫= failed_round w req) =
    if Verbose (options w) then notices (Timeout (options w)) rs else [].
Proof.
  induction 1 as [|r rs [e He] _ (IHq & IHa & IHs & IHl)].
  - by destruct (Verbose (options w)).
  - destruct r as [resp err]. simpl in He. subst err.
    change (((resp, Some e) :: rs) ≫= failed_round w req)
      with (failed_round w req (resp, Some e) ++ (rs ≫= failed_round w req))%list.
    rewrite quiet_app, attempts_app, sleeps_app, logs_app, IHq, IHa, IHs, IHl.
    unfold failed_round, said, notices. simpl.
    by destruct (Verbose (options w)).
Qed.

Lemma ending_observed w req x :
  quiet (ending_trace w req x) = ending_calls req x /\
  attempts (ending_trace w req x) = (if x is NoClient then 0 else 1)%nat /\
  sleeps (ending_trace w req x) = [] /\
  logs (ending_trace w req x) = if Verbose (options w) then ending_log x else [].
Proof.
  unfold ending_trace, said. by destruct x, (Verbose (options w)).
Qed.

(** A run of [fetch] for a request that [http.NewRequest] accepts. *)
Lemma fetch_run w method path params payload req st :
  http_NewRequest method path payload = inl req ->
  exists rs x,
    (fetch w method path params payload st).1 = ending_result x /\
    since st (fetch w method path params payload st).2 =
      (said w (LogRequest (http.Method (outgoing req params))
                 (URL_String (http.URL (outgoing req params)))) ++
       (rs ≫= failed_round w (outgoing req params)) ++
       ending_trace w (outgoing req params) x)%list /\
    Forall failed rs /\
    (length rs <= Z.to_nat (Tries (options w)))%nat /\
    match x with
    | GaveUp r err => r.2 = Some err /\ length rs = Z.to_nat (Tries (options w))
    | NoClient => rs = []
    | Succeeded _ | NilNil => True
    end /\
    (x = NoClient <-> cl w = None).
Proof.
  intros Hreq. rewrite (fetch_built _ _ _ _ _ _ _ Hreq).
  set (req' := outgoing req params).
  set (line := LogRequest (http.Method req') (URL_String (http.URL req'))).
  destruct (retry_run w req' (Z.to_nat (Tries (options w) - 0)) 0 (logFetch w line st))
    as (rs & x & Hres & Htr & Hall & Hlen & Hx & Hno); [lia|].
  destruct (logFetch_trace w line st) as (Hlg & _).
  rewrite Z.sub_0_r in Hlen, Hx.
  exists rs, x.
  split_and!; [exact Hres | | exact Hall | exact Hlen | exact Hx | exact Hno].
  apply since_app. by rewrite Htr, Hlg, <- !app_assoc.
Qed.

End runs.

(** ** What any run of fetch looks like *)

(** X1. Whatever the transport does, a [fetch] through a client calls it at
    least once and at most [Tries + 1] times (once when [Tries] is negative),
    and sleeps for [Timeout] exactly once between two calls. *)
Theorem fetch_attempts_bounded `{Platform} (w : WebClient) (c : http.Client)
    (method path : string) (params : gmap string string)
    (payload : option io_Reader) (req : http.Request) (st : World) :
  cl w = Some c ->
  http_NewRequest method path payload = inl req ->
  (1 <= attempts (since st (fetch w method path params payload st).2)
     <= Z.to_nat (Tries (options w)) + 1)%nat /\
  sleeps (since st (fetch w method path params payload st).2) =
    replicate (attempts (since st (fetch w method path params payload st).2) - 1)
      (Timeout (options w)).
Proof.
  intros Hc Hreq.
  destruct (fetch_run w method path params payload req st Hreq)
    as (rs & x & _ & -> & Hall & Hlen & Hx & Hno).
  destruct (failed_rounds_observed w (outgoing req params) rs Hall) as (_ & Ha & Hs & _).
  destruct (ending_observed w (outgoing req params) x) as (_ & Ha' & Hs' & _).
  destruct (said_observed w (LogRequest (http.Method (outgoing req params))
                               (URL_String (http.URL (outgoing req params)))))
    as (_ & Ha0 & Hs0 & _).
  rewrite !attempts_app, !sleeps_app, Ha, Ha', Hs, Hs', Ha0, Hs0, app_nil_r. simpl.
  destruct x as [r e|resp| |];
    try (destruct Hno as [Hno _]; specialize (Hno eq_refl); congruence).
  all: replace (length rs + 1 - 1)%nat with (length rs) by lia.
  all: split; [lia | reflexivity].
Qed.

Lemma fetch_attempts_bounded_witness :
  (cl (Stub.client (Stub.with_Tries 4)) = Some (Stub.client_of (Stub.with_Tries 4)) /\
   @http_NewRequest _ (Stub.platform (Stub.flaky 2 (Stub.response 200 "ok")))
     "GET" "https://example.test/" None =
     inl (Stub.request "GET" "https://example.test/")) /\
  (1 <= attempts (since Stub.world
          (@fetch _ (Stub.platform (Stub.flaky 2 (Stub.response 200 "ok")))
             (Stub.client (Stub.with_Tries 4)) "GET" "https://example.test/" ∅ None
             Stub.world).2)
     <= Z.to_nat (Tries (options (Stub.client (Stub.with_Tries 4)))) + 1)%nat /\
  sleeps (since Stub.world
            (@fetch _ (Stub.platform (Stub.flaky 2 (Stub.response 200 "ok")))
               (Stub.client (Stub.with_Tries 4)) "GET" "https://example.test/" ∅ None
               Stub.world).2) =
    replicate
      (attempts (since Stub.world
         (@fetch _ (Stub.platform (Stub.flaky 2 (Stub.response 200 "ok")))
            (Stub.client (Stub.with_Tries 4)) "GET" "https://example.test/" ∅ None
            Stub.world).2) - 1)
      (Timeout (options (Stub.client (Stub.with_Tries 4)))).
Proof.
  split; [split; reflexivity|].
  exact (@fetch_attempts_bounded _ (Stub.platform (Stub.flaky 2 (Stub.response 200 "ok")))
           (Stub.client (Stub.with_Tries 4)) _ "GET" "https://example.test/" ∅ None
           _ Stub.world eq_refl eq_refl).
Defined.

(** X2. What [fetch] returns tells how the run went. No data and an error:
    the budget is used up, [Tries + 1] calls all failed and the error is that
    of the last. Data: some call succeeded, it was the last one, the data is
    the content of its body and the error is what ended the reading. *)
Theorem fetch_reply_explains_run `{Platform} (w : WebClient)
    (method path : string) (params : gmap string string)
    (payload : option io_Reader) (req : http.Request) (st : World) :
  http_NewRequest method path payload = inl req ->
  (forall e,
     (fetch w method path params payload st).1 = Ok (None, Some e) ->
     exists rs r,
       r.2 = Some e /\ Forall failed rs /\
       length rs = Z.to_nat (Tries (options w)) /\
       quiet (since st (fetch w method path params payload st).2) =
         (rounds (outgoing req params) (Timeout (options w)) rs ++
          [Dispatch (outgoing req params) r])%list) /\
  (forall d err,
     (fetch w method path params payload st).1 = Ok (Some d, err) ->
     exists rs resp,
       d = http.content (http.Body resp) /\ err = http.fault (http.Body resp) /\
       Forall failed rs /\
       (length rs <= Z.to_nat (Tries (options w)))%nat /\
       quiet (since st (fetch w method path params payload st).2) =
         (rounds (outgoing req params) (Timeout (options w)) rs ++
          [Dispatch (outgoing req params) (Some resp, None);
           ReadAll (http.Body resp); Close (http.Body resp)])%list).
Proof.
  intros Hreq.
  destruct (fetch_run w method path params payload req st Hreq)
    as (rs & x & Hres & Htr & Hall & Hlen & Hx & _).
  destruct (failed_rounds_observed w (outgoing req params) rs Hall) as (Hq & _).
  destruct (ending_observed w (outgoing req params) x) as (Hq' & _).
  destruct (said_observed w (LogRequest (http.Method (outgoing req params))
                               (URL_String (http.URL (outgoing req params)))))
    as (Hq0 & _).
  rewrite Htr, !quiet_app, Hq, Hq', Hq0, Hres. simpl.
  split.
  - intros e He. destruct x as [r e'|resp| |]; try discriminate.
    injection He as ->. destruct Hx as [Hr Hl]. exists rs, r. done.
  - intros d err Hd. destruct x as [r e'|resp| |]; try discriminate.
    injection Hd as <- <-. exists rs, resp. done.
Qed.

Lemma fetch_reply_explains_run_witness :
  @http_NewRequest _ (Stub.platform Stub.refusing) "GET" "https://example.test/" None =
    inl (Stub.request "GET" "https://example.test/") /\
  (@fetch _ (Stub.platform Stub.refusing) (Stub.client default_Options)
     "GET" "https://example.test/" ∅ None Stub.world).1 =
    Ok (None, Some "connection refused") /\
  exists rs r,
    r.2 = Some "connection refused" /\ Forall failed rs /\
    length rs = Z.to_nat (Tries (options (Stub.client default_Options))) /\
    quiet (since Stub.world
             (@fetch _ (Stub.platform Stub.refusing) (Stub.client default_Options)
                "GET" "https://example.test/" ∅ None Stub.world).2) =
      (rounds (@outgoing _ (Stub.platform Stub.refusing)
                 (Stub.request "GET" "https://example.test/") ∅)
         (Timeout (options (Stub.client default_Options))) rs ++
       [Dispatch (@outgoing _ (Stub.platform Stub.refusing)
                    (Stub.request "GET" "https://example.test/") ∅) r])%list.
Proof.
  split; [reflexivity|]. split; [vm_compute; reflexivity|].
  apply (proj1 (@fetch_reply_explains_run _ (Stub.platform Stub.refusing)
                  (Stub.client default_Options) "GET" "https://example.test/" ∅ None
                  (Stub.request "GET" "https://example.test/") Stub.world eq_refl)).
  vm_compute. reflexivity.
Defined.

(** X3. [fetch] never returns nil data together with a nil error. *)
Theorem fetch_never_returns_nil_nil `{Platform} (w : WebClient)
    (method path : string) (params : gmap string string)
    (payload : option io_Reader) (st : World) :
  (fetch w method path params payload st).1 <> Ok (None, None).
Proof.
  destruct (http_NewRequest method path payload) as [req|e] eqn:Hreq.
  - destruct (fetch_run w method path params payload req st Hreq)
      as (rs & x & -> & _). by destruct x.
  - unfold fetch. rewrite Hreq. discriminate.
Qed.

(** X4. A request that [http.NewRequest] rejects is never sent: [fetch]
    returns that error and leaves the world as it was. In every other case a
    client makes [fetch] call the transport: no call at all happens exactly
    when the request is rejected or the client pointer is nil. *)
Theorem fetch_dispatches_iff `{Platform} (w : WebClient)
    (method path : string) (params : gmap string string)
    (payload : option io_Reader) (st : World) :
  (forall e, http_NewRequest method path payload = inr e ->
     fetch w method path params payload st = (Ok (None, Some e), st)) /\
  (attempts (since st (fetch w method path params payload st).2) = 0%nat <->
   (exists e, http_NewRequest method path payload = inr e) \/ cl w = None).
Proof.
  split.
  - intros e He. unfold fetch. by rewrite He.
  - destruct (http_NewRequest method path payload) as [req|e] eqn:Hreq.
    + destruct (fetch_run w method path params payload req st Hreq)
        as (rs & x & _ & -> & Hall & _ & Hx & Hno).
      destruct (failed_rounds_observed w (outgoing req params) rs Hall) as (_ & Ha & _).
      destruct (ending_observed w (outgoing req params) x) as (_ & Ha' & _).
      destruct (said_observed w (LogRequest (http.Method (outgoing req params))
                                   (URL_String (http.URL (outgoing req params)))))
        as (_ & Ha0 & _).
      rewrite !attempts_app, Ha, Ha', Ha0. split.
      * intros Hzero. right. destruct x as [r e|resp| |]; try lia. by apply Hno.
      * intros [[e He]|Hnil]; [discriminate|].
        apply Hno in Hnil. subst x. by rewrite Hx.
    + unfold fetch. rewrite Hreq. simpl. unfold since. rewrite drop_all.
      split; [eauto | reflexivity].
Qed.

Lemma fetch_dispatches_iff_witness :
  @http_NewRequest _ (Stub.platform Stub.refusing) "GET" ":bad" None =
    inr "missing protocol scheme" /\
  @fetch _ (Stub.platform Stub.refusing) (Stub.client default_Options)
    "GET" ":bad" ∅ None Stub.world =
    (Ok (None, Some "missing protocol scheme"), Stub.world).
Proof.
  split; [reflexivity|].
  exact (proj1 (@fetch_dispatches_iff _ (Stub.platform Stub.refusing)
                  (Stub.client default_Options) "GET" ":bad" ∅ None Stub.world)
           "missing protocol scheme" eq_refl).
Defined.

(** X5. On a [WebClient] whose client pointer is nil, as in the zero value,
    [fetch] panics with a nil dereference once the request is built: it has
    called no transport and changed nothing but the log. *)
Theorem fetch_without_client `{Platform} (w : WebClient)
    (method path : string) (params : gmap string string)
    (payload : option io_Reader) (req : http.Request) (st : World) :
  cl w = None ->
  http_NewRequest method path payload = inl req ->
  (fetch w method path params payload st).1 = Panic nil_dereference /\
  quiet (since st (fetch w method path params payload st).2) = [] /\
  jars (fetch w method path params payload st).2 = jars st /\
  network (fetch w method path params payload st).2 = network st /\
  files (fetch w method path params payload st).2 = files st.
Proof.
  intros Hc Hreq. rewrite (fetch_built _ _ _ _ _ _ _ Hreq).
  set (line := LogRequest _ _).
  rewrite (retry_panicked w _ 0 _ nil_dereference (logFetch w line st))
    by (by rewrite Hc).
  destruct (logFetch_trace w line st) as (Hlg & Hnet & Hjars & Hfiles).
  simpl. split_and!; try done.
  rewrite (since_app st _ (said w line)) by exact Hlg.
  apply said_observed.
Qed.

Lemma fetch_without_client_witness :
  (cl Stub.zero_client = None /\
   @http_NewRequest _ (Stub.platform Stub.refusing) "GET" "https://example.test/" None =
     inl (Stub.request "GET" "https://example.test/")) /\
  (@fetch _ (Stub.platform Stub.refusing) Stub.zero_client
     "GET" "https://example.test/" ∅ None Stub.world).1 = Panic nil_dereference /\
  quiet (since Stub.world
           (@fetch _ (Stub.platform Stub.refusing) Stub.zero_client
              "GET" "https://example.test/" ∅ None Stub.world).2) = [] /\
  jars (@fetch _ (Stub.platform Stub.refusing) Stub.zero_client
          "GET" "https://example.test/" ∅ None Stub.world).2 = jars Stub.world /\
  network (@fetch _ (Stub.platform Stub.refusing) Stub.zero_client
             "GET" "https://example.test/" ∅ None Stub.world).2 = network Stub.world /\
  files (@fetch _ (Stub.platform Stub.refusing) Stub.zero_client
           "GET" "https://example.test/" ∅ None Stub.world).2 = files Stub.world.
Proof.
  split; [split; reflexivity|].
  exact (@fetch_without_client _ (Stub.platform Stub.refusing) Stub.zero_client
           "GET" "https://example.test/" ∅ None _ Stub.world eq_refl eq_refl).
Defined.

(** X6. With [Tries] zero or negative nothing is retried: when the first
    call fails, [fetch] returns its error after that one call, without
    sleeping. *)
Theorem fetch_no_retry_without_budget `{Platform} (w : WebClient) (c : http.Client)
    (method path : string) (params : gmap string string)
    (payload : option io_Reader) (req : http.Request) (st : World)
    (resp : option http.Response) (e : error) :
  cl w = Some c ->
  http_NewRequest method path payload = inl req ->
  (http_Do c (jar_of c st) (outgoing req params) (network st)).1.1 = (resp, Some e) ->
  Tries (options w) <= 0 ->
  (fetch w method path params payload st).1 = Ok (None, Some e) /\
  quiet (since st (fetch w method path params payload st).2) =
    [Dispatch (outgoing req params) (resp, Some e)] /\
  sleeps (since st (fetch w method path params payload st).2) = [].
Proof.
  intros Hc Hreq Hdo HN. rewrite (fetch_built _ _ _ _ _ _ _ Hreq).
  set (req' := outgoing req params) in *. set (line := LogRequest _ _).
  destruct (logFetch_trace w line st) as (Hlg & Hnet & Hjars & _).
  destruct (Do_cases w c req' (logFetch w line st) Hc)
    as (res & st1 & HDo & Hres & _ & Htr).
  assert (Hjar : jar_of c (logFetch w line st) = jar_of c st)
    by (unfold jar_of; by rewrite Hjars).
  rewrite Hjar, Hnet, Hdo in Hres. subst res.
  rewrite (retry_failed _ _ _ _ _ _ _ HDo), decide_False by lia.
  destruct (logFetch_trace w LogAbort st1) as (Hlg1 & _). simpl.
  rewrite (since_app st _ (said w line ++ [Dispatch req' (resp, Some e)] ++
                           said w LogAbort))
    by (by rewrite Hlg1, Htr, Hlg, <- !app_assoc).
  destruct (said_observed w line) as (Hq0 & _ & Hs0 & _).
  destruct (said_observed w LogAbort) as (Hq1 & _ & Hs1 & _).
  rewrite !quiet_app, !sleeps_app, Hq0, Hq1, Hs0, Hs1. done.
Qed.

Lemma fetch_no_retry_without_budget_witness :
  (cl (Stub.client (Stub.with_Tries (-3))) =
     Some (Stub.client_of (Stub.with_Tries (-3))) /\
   @http_NewRequest _ (Stub.platform Stub.refusing) "GET" "https://example.test/" None =
     inl (Stub.request "GET" "https://example.test/") /\
   Stub.refusing 0%nat = (None, Some "connection refused") /\
   Tries (options (Stub.client (Stub.with_Tries (-3)))) <= 0) /\
  (@fetch _ (Stub.platform Stub.refusing) (Stub.client (Stub.with_Tries (-3)))
     "GET" "https://example.test/" ∅ None Stub.world).1 =
    Ok (None, Some "connection refused") /\
  quiet (since Stub.world
           (@fetch _ (Stub.platform Stub.refusing) (Stub.client (Stub.with_Tries (-3)))
              "GET" "https://example.test/" ∅ None Stub.world).2) =
    [Dispatch (@outgoing _ (Stub.platform Stub.refusing)
                 (Stub.request "GET" "https://example.test/") ∅)
       (None, Some "connection refused")] /\
  sleeps (since Stub.world
            (@fetch _ (Stub.platform Stub.refusing) (Stub.client (Stub.with_Tries (-3)))
               "GET" "https://example.test/" ∅ None Stub.world).2) = [].
Proof.
  assert (HN : Tries (options (Stub.client (Stub.with_Tries (-3)))) <= 0)
    by (vm_compute; discriminate).
  split; [split_and!; solve [reflexivity | exact HN]|].
  exact (@fetch_no_retry_without_budget _ (Stub.platform Stub.refusing)
           (Stub.client (Stub.with_Tries (-3))) _ "GET" "https://example.test/" ∅ None
           (Stub.request "GET" "https://example.test/") Stub.world None
           "connection refused" eq_refl eq_refl eq_refl HN).
Defined.

Section returns.
Context `{Platform}.

Lemma retry_returns (w : WebClient) (c : http.Client) (req : http.Request) (n : nat) :
  cl w = Some c ->
  (forall c jar req n, (http_Do c jar req n).1.1 <> (None, None)) ->
  forall tryCount st,
    (Z.to_nat (Tries (options w) - tryCount) <= n)%nat ->
    exists reply, (retry w req tryCount st).1 = Ok reply.
Proof.
  intros Hc Hkeep. induction n as [|n IH]; intros t st Hn.
  all: destruct (Do_cases w c req st Hc) as ([resp err] & st1 & HDo & Hres & _).
  all: destruct err as [e|]; [|destruct resp as [resp|]].
  all: try (rewrite (retry_succeeded _ _ _ _ _ _ HDo); by eexists).
  all: try (by destruct (Hkeep c (jar_of c st) req (network st))).
  all: rewrite (retry_failed _ _ _ _ _ _ _ HDo).
  all: destruct (decide (t < Tries (options w))); [|by eexists].
  - lia.
  - apply IH. lia.
Qed.

End returns.

(** X7. Through a client, and with a transport that never hands back a nil
    response together with a nil error, [fetch] does not panic: it
    returns. *)
Theorem fetch_returns `{Platform} (w : WebClient) (c : http.Client)
    (method path : string) (params : gmap string string)
    (payload : option io_Reader) (st : World) :
  cl w = Some c ->
  (forall c jar req n, (http_Do c jar req n).1.1 <> (None, None)) ->
  exists reply, (fetch w method path params payload st).1 = Ok reply.
Proof.
  intros Hc Hkeep. unfold fetch.
  destruct (http_NewRequest method path payload) as [req|e]; [|by eexists].
  apply (retry_returns w c _ (Z.to_nat (Tries (options w) - 0)) Hc Hkeep). lia.
Qed.

Lemma fetch_returns_witness :
  (cl (Stub.client default_Options) = Some (Stub.client_of default_Options) /\
   (forall c jar req n,
      (@http_Do _ (Stub.platform Stub.refusing) c jar req n).1.1 <> (None, None))) /\
  exists reply,
    (@fetch _ (Stub.platform Stub.refusing) (Stub.client default_Options)
       "GET" "https://example.test/" ∅ None Stub.world).1 = Ok reply.
Proof.
  assert (Hkeep : forall c jar req n,
            (@http_Do _ (Stub.platform Stub.refusing) c jar req n).1.1 <> (None, None))
    by (intros; simpl; discriminate).
  split; [split; [reflexivity | exact Hkeep]|].
  exact (@fetch_returns _ (Stub.platform Stub.refusing) (Stub.client default_Options) _
           "GET" "https://example.test/" ∅ None Stub.world eq_refl Hkeep).
Defined.

(** X8. What [fetch] prints. With [Verbose] off, nothing. With [Verbose] on:
    the method and URL of the request first, then a retry notice with the
    timeout and the error for each failed call that is retried, and last
    the status code of the response on success or the abort line when it
    gives up; a panic prints no last line. *)
Theorem fetch_log_transcript `{Platform} (w : WebClient)
    (method path : string) (params : gmap string string)
    (payload : option io_Reader) (req : http.Request) (st : World) :
  http_NewRequest method path payload = inl req ->
  exists rs x,
    (fetch w method path params payload st).1 = ending_result x /\
    quiet (since st (fetch w method path params payload st).2) =
      (rounds (outgoing req params) (Timeout (options w)) rs ++
       ending_calls (outgoing req params) x)%list /\
    logs (since st (fetch w method path params payload st).2) =
      if Verbose (options w) then
        (LogRequest (http.Method (outgoing req params))
           (URL_String (http.URL (outgoing req params))) ::
         notices (Timeout (options w)) rs ++ ending_log x)%list
      else [].
Proof.
  intros Hreq.
  destruct (fetch_run w method path params payload req st Hreq)
    as (rs & x & Hres & Htr & Hall & _).
  destruct (failed_rounds_observed w (outgoing req params) rs Hall) as (Hq & _ & _ & Hl).
  destruct (ending_observed w (outgoing req params) x) as (Hq' & _ & _ & Hl').
  destruct (said_observed w (LogRequest (http.Method (outgoing req params))
                               (URL_String (http.URL (outgoing req params)))))
    as (Hq0 & _ & _ & Hl0).
  exists rs, x. rewrite Htr, !quiet_app, !logs_app, Hq, Hq', Hq0, Hl, Hl', Hl0.
  split_and!; [exact Hres | reflexivity |].
  by destruct (Verbose (options w)).
Qed.

Lemma fetch_log_transcript_witness :
  @http_NewRequest _ (Stub.platform (Stub.flaky 1 (Stub.response 200 "ok")))
    "GET" "https://example.test/" None =
    inl (Stub.request "GET" "https://example.test/") /\
  exists rs x,
    (@fetch _ (Stub.platform (Stub.flaky 1 (Stub.response 200 "ok")))
       (set_Verbose true (Stub.client default_Options))
       "GET" "https://example.test/" ∅ None Stub.world).1 = ending_result x /\
    quiet (since Stub.world
             (@fetch _ (Stub.platform (Stub.flaky 1 (Stub.response 200 "ok")))
                (set_Verbose true (Stub.client default_Options))
                "GET" "https://example.test/" ∅ None Stub.world).2) =
      (rounds (@outgoing _ (Stub.platform (Stub.flaky 1 (Stub.response 200 "ok")))
                 (Stub.request "GET" "https://example.test/") ∅)
         (Timeout default_Options) rs ++
       ending_calls (@outgoing _ (Stub.platform (Stub.flaky 1 (Stub.response 200 "ok")))
                       (Stub.request "GET" "https://example.test/") ∅) x)%list /\
    logs (since Stub.world
            (@fetch _ (Stub.platform (Stub.flaky 1 (Stub.response 200 "ok")))
               (set_Verbose true (Stub.client default_Options))
               "GET" "https://example.test/" ∅ None Stub.world).2) =
      (LogRequest "GET" "https://example.test/" ::
       notices (Timeout default_Options) rs ++ ending_log x)%list.
Proof.
  split; [reflexivity|].
  exact (@fetch_log_transcript _ (Stub.platform (Stub.flaky 1 (Stub.response 200 "ok")))
           (set_Verbose true (Stub.client default_Options))
           "GET" "https://example.test/" ∅ None
           (Stub.request "GET" "https://example.test/") Stub.world eq_refl).
Defined.

(** ** Logging does not steer the loop *)
Section verbose.
Context `{Platform}.

Lemma same_apart_from_log_refl (st : World) : same_apart_from_log st st.
Proof. done. Qed.

Lemma logFetch_same (w1 w2 : WebClient) (s1 s2 : LogLine) (st1 st2 : World) :
  same_apart_from_log st1 st2 ->
  same_apart_from_log (logFetch w1 s1 st1) (logFetch w2 s2 st2).
Proof.
  intros (Hj & Hn & Hf & Ht).
  destruct (logFetch_trace w1 s1 st1) as (Hlg1 & Hn1 & Hj1 & Hf1).
  destruct (logFetch_trace w2 s2 st2) as (Hlg2 & Hn2 & Hj2 & Hf2).
  destruct (said_observed w1 s1) as (Hq1 & _). destruct (said_observed w2 s2) as (Hq2 & _).
  unfold same_apart_from_log.
  rewrite Hlg1, Hlg2, Hn1, Hn2, Hj1, Hj2, Hf1, Hf2, !quiet_app, Hq1, Hq2, !app_nil_r.
  done.
Qed.

Lemma emit_same (e : Event) (st1 st2 : World) :
  same_apart_from_log st1 st2 -> same_apart_from_log (emit e st1) (emit e st2).
Proof.
  intros (Hj & Hn & Hf & Ht). unfold same_apart_from_log. simpl.
  rewrite !quiet_app, Ht. done.
Qed.

Lemma Sleep_same (d : time.Duration) (st1 st2 : World) :
  same_apart_from_log st1 st2 -> same_apart_from_log (Sleep_ d st1) (Sleep_ d st2).
Proof.
  intros (Hj & Hn & Hf & Ht). unfold same_apart_from_log. simpl.
  rewrite !quiet_app, Ht, Hn. done.
Qed.

Lemma Do_same (c : option http.Client) (req : http.Request) (st1 st2 : World) :
  same_apart_from_log st1 st2 ->
  (Do c req st1).1 = (Do c req st2).1 /\
  same_apart_from_log (Do c req st1).2 (Do c req st2).2.
Proof.
  intros (Hj & Hn & Hf & Ht). unfold Do. destruct c as [c|]; [|done].
  unfold jar_of. rewrite Hj, Hn.
  destruct (http_Do _ _ _ _) as [[res jar'] net']. simpl.
  split; [done|]. unfold same_apart_from_log. simpl.
  rewrite !quiet_app, Ht, ?Hj, ?Hf. done.
Qed.

Lemma retry_Verbose (w : WebClient) (b : bool) (req : http.Request) (n : nat) :
  forall tryCount st1 st2,
    same_apart_from_log st1 st2 ->
    (Z.to_nat (Tries (options w) - tryCount) <= n)%nat ->
    (retry w req tryCount st1).1 = (retry (set_Verbose b w) req tryCount st2).1 /\
    same_apart_from_log (retry w req tryCount st1).2
      (retry (set_Verbose b w) req tryCount st2).2.
Proof.
  induction n as [|n IH]; intros t st1 st2 Hsame Hn.
  all: destruct (Do_same (cl w) req st1 st2 Hsame) as [Hres Hst].
  all: destruct (Do (cl w) req st1) as [r1 s1] eqn:HDo1.
  all: destruct (Do (cl w) req st2) as [r2 s2] eqn:HDo2.
  all: simpl in Hres, Hst; subst r2.
  all: change (cl w) with (cl (set_Verbose b w)) in HDo2.
  all: destruct r1 as [[resp [e|]]|msg]; [| destruct resp as [resp|] |].
  all: try (rewrite (retry_panicked _ _ _ _ _ _ HDo1),
              (retry_panicked _ _ _ _ _ _ HDo2); done).
  all: try (rewrite (retry_nil_nil _ _ _ _ _ HDo1),
              (retry_nil_nil _ _ _ _ _ HDo2); done).
  all: try (rewrite (retry_succeeded _ _ _ _ _ _ HDo1),
              (retry_succeeded _ _ _ _ _ _ HDo2);
            split; [done|]; by apply emit_same, emit_same, logFetch_same).
  all: rewrite (retry_failed _ _ _ _ _ _ _ HDo1), (retry_failed _ _ _ _ _ _ _ HDo2).
  all: change (Tries (options (set_Verbose b w))) with (Tries (options w)).
  all: change (Timeout (options (set_Verbose b w))) with (Timeout (options w)).
  all: destruct (decide (t < Tries (options w)));
    [|split; [done|]; by apply logFetch_same].
  - lia.
  - apply IH; [|lia]. by apply Sleep_same, logFetch_same.
Qed.

End verbose.

(** X9. Logging is diagnostic only: with [Verbose] switched either way,
    [fetch] returns the same, makes the same calls in the same order and
    leaves the same jars, network and files; only the lines printed
    differ. *)
Theorem fetch_Verbose_only_logs `{Platform} (w : WebClient) (b : bool)
    (method path : string) (params : gmap string string)
    (payload : option io_Reader) (st : World) :
  (fetch w method path params payload st).1 =
    (fetch (set_Verbose b w) method path params payload st).1 /\
  same_apart_from_log (fetch w method path params payload st).2
    (fetch (set_Verbose b w) method path params payload st).2.
Proof.
  unfold fetch. destruct (http_NewRequest method path payload) as [req|e]; [|done].
  apply retry_Verbose with (n := Z.to_nat (Tries (options w) - 0)); [|lia].
  apply logFetch_same, same_apart_from_log_refl.
Qed.

(** ** What a fetch leaves alone *)
Section frame.
Context `{Platform}.

Lemma only_jar_changed_refl a (st : World) : only_jar_changed a st st.
Proof. done. Qed.

Lemma only_jar_changed_trans a (st1 st2 st3 : World) :
  only_jar_changed a st1 st2 -> only_jar_changed a st2 st3 ->
  only_jar_changed a st1 st3.
Proof.
  intros (Hf & Hl & Hj) (Hf' & Hl' & Hj'). split_and!; [congruence | congruence |].
  intros a' Ha. rewrite Hj', Hj; done.
Qed.

Lemma logFetch_frame a (w : WebClient) (s : LogLine) (st : World) :
  only_jar_changed a st (logFetch w s st).
Proof.
  destruct (logFetch_trace w s st) as (_ & _ & Hj & Hf).
  unfold only_jar_changed. by rewrite Hj, Hf.
Qed.

Lemma Do_frame (c : option http.Client) (req : http.Request) (st : World) :
  only_jar_changed (c ≫= http.Jar) st (Do c req st).2.
Proof.
  unfold Do. destruct c as [c|]; [|done].
  destruct (http_Do _ _ _ _) as [[res jar'] net']. simpl.
  destruct (http.Jar c) as [a|], jar' as [j'|]; try done.
  split_and!; simpl; [done | by rewrite length_insert |].
  intros a' Ha. apply list_lookup_insert_ne. congruence.
Qed.

Lemma retry_frame (w : WebClient) (req : http.Request) (n : nat) :
  forall tryCount st,
    (Z.to_nat (Tries (options w) - tryCount) <= n)%nat ->
    only_jar_changed (cl w ≫= http.Jar) st (retry w req tryCount st).2.
Proof.
  induction n as [|n IH]; intros t st Hn.
  all: pose proof (Do_frame (cl w) req st) as Hframe.
  all: destruct (Do (cl w) req st) as [[[resp [e|]]|msg] st1] eqn:HDo;
    [| destruct resp as [resp|] |]; simpl in Hframe.
  all: try (rewrite (retry_panicked _ _ _ _ _ _ HDo); done).
  all: try (rewrite (retry_nil_nil _ _ _ _ _ HDo); done).
  all: try (rewrite (retry_succeeded _ _ _ _ _ _ HDo);
            eapply only_jar_changed_trans; [exact Hframe|];
            eapply only_jar_changed_trans; [apply logFetch_frame|]; done).
  all: rewrite (retry_failed _ _ _ _ _ _ _ HDo).
  all: destruct (decide (t < Tries (options w)));
    [|eapply only_jar_changed_trans; [exact Hframe | apply logFetch_frame]].
  - lia.
  - eapply only_jar_changed_trans; [exact Hframe|].
    eapply only_jar_changed_trans; [apply logFetch_frame|].
    eapply only_jar_changed_trans; [|apply IH; lia]. done.
Qed.

Lemma fetch_frame (w : WebClient) (method path : string)
    (params : gmap string string) (payload : option io_Reader) (st : World) :
  only_jar_changed (cl w ≫= http.Jar) st (fetch w method path params payload st).2.
Proof.
  unfold fetch. destruct (http_NewRequest method path payload) as [req|e]; [|done].
  eapply only_jar_changed_trans; [apply logFetch_frame|].
  apply retry_frame with (n := Z.to_nat (Tries (options w) - 0)). lia.
Qed.

End frame.

(** X10. A [fetch] never touches the file system, never adds or removes a
    jar object, and changes no jar other than the one of its own client. *)
Theorem fetch_changes_own_jar_only `{Platform} (w : WebClient)
    (method path : string) (params : gmap string string)
    (payload : option io_Reader) (st : World) :
  files (fetch w method path params payload st).2 = files st /\
  length (jars (fetch w method path params payload st).2) = length (jars st) /\
  forall a, cl w ≫= http.Jar <> Some a ->
    jars (fetch w method path params payload st).2 !! a = jars st !! a.
Proof.
  destruct (fetch_frame w method path params payload st) as (Hfiles & Hlen & Hother).
  split_and!; [exact Hfiles | exact Hlen | exact Hother].
Qed.

(** ** The request that is sent *)
Section sent.
Context `{Platform}.

Lemma foldl_req_Header_Add_fields (l : list (string * string)) (req : http.Request) :
  http.Method (foldl req_Header_Add req l) = http.Method req /\
  http.URL (foldl req_Header_Add req l) = http.URL req /\
  http.Payload (foldl req_Header_Add req l) = http.Payload req.
Proof.
  revert req. induction l as [|kp l IH]; intros req; [done|].
  simpl. destruct (IH (req_Header_Add req kp)) as (-> & -> & ->). done.
Qed.

Lemma range_empty : range (∅ : gmap string string) = [].
Proof.
  apply Permutation_nil_r. rewrite range_perm. by rewrite map_to_list_empty.
Qed.

End sent.

Section sent_request.
Context `{Platform}.

Lemma fetch_sent (w : WebClient) (method path : string)
    (params : gmap string string) (payload : option io_Reader)
    (req : http.Request) (st : World) :
  http_NewRequest method path payload = inl req ->
  sent_only (outgoing req params)
    (since st (fetch w method path params payload st).2).
Proof.
  intros Hreq. rewrite (fetch_built _ _ _ _ _ _ _ Hreq).
  set (req' := outgoing req params). set (line := LogRequest _ _).
  destruct (retry_sent w req' (Z.to_nat (Tries (options w) - 0)) 0 (logFetch w line st))
    as (tr & Htr & Hsent); [lia|].
  destruct (logFetch_trace w line st) as (Hlg & _).
  rewrite (since_app st _ (said w line ++ tr)) by (by rewrite Htr, Hlg, <- app_assoc).
  apply sent_only_app; [|exact Hsent]. apply sent_only_log, said_observed.
Qed.

End sent_request.

(** X11. Every call of one [fetch] hands the transport the same request:
    the one [http.NewRequest] built from the method, the URL and the payload,
    changed in its header only. With no [params], as in [Get(path, nil)], it
    is that request unchanged. *)
Theorem fetch_sends_built_request `{Platform} (w : WebClient)
    (method path : string) (params : gmap string string)
    (payload : option io_Reader) (req : http.Request) (st : World) :
  http_NewRequest method path payload = inl req ->
  forall r res,
    Dispatch r res ∈ since st (fetch w method path params payload st).2 ->
    r = outgoing req params /\
    http.Method r = http.Method req /\
    http.URL r = http.URL req /\
    http.Payload r = http.Payload req /\
    (params = ∅ -> r = req).
Proof.
  intros Hreq r res Hin.
  assert (r = outgoing req params) as ->
    by exact (fetch_sent w method path params payload req st Hreq r res Hin).
  destruct (foldl_req_Header_Add_fields (range params) req) as (Hm & Hu & Hp).
  split_and!; [done | exact Hm | exact Hu | exact Hp |].
  intros ->. unfold outgoing. by rewrite range_empty.
Qed.

Lemma fetch_sends_built_request_witness :
  @http_NewRequest _ (Stub.platform Stub.refusing) "PUT" "https://example.test/x"
    (Some (String.list_byte_of_string "body")) =
    inl (@http.Build_Request Stub.types "PUT" "https://example.test/x" ∅
           (Some (String.list_byte_of_string "body"))) /\
  forall r res,
    Dispatch r res ∈
      since Stub.world
        (@fetch _ (Stub.platform Stub.refusing) (Stub.client default_Options)
           "PUT" "https://example.test/x" {["Accept" := "text/plain"]}
           (Some (String.list_byte_of_string "body")) Stub.world).2 ->
    http.Method r = "PUT" /\
    http.URL r = "https://example.test/x" /\
    http.Payload r = Some (String.list_byte_of_string "body").
Proof.
  split; [reflexivity|]. intros r res Hin.
  destruct (@fetch_sends_built_request _ (Stub.platform Stub.refusing)
              (Stub.client default_Options) "PUT" "https://example.test/x"
              {["Accept" := "text/plain"]} (Some (String.list_byte_of_string "body"))
              _ Stub.world eq_refl r res Hin) as (_ & Hm & Hu & Hp & _).
  split_and!; assumption.
Defined.

(** ** A scripted transport that outlasts the budget *)
Section gives_up.
Context `{Platform}.

Lemma retry_scripted_gives_up (w : WebClient) (c : http.Client) (req : http.Request)
    (script : nat -> DoResult) (pos : Network -> nat) :
  cl w = Some c -> scripted script pos ->
  forall (n : nat) tryCount st,
    Tries (options w) - tryCount = Z.of_nat n ->
    (forall i, (i <= n)%nat -> failed (script (pos (network st) + i)%nat)) ->
    exists e st' tr,
      retry w req tryCount st = (Ok (None, Some e), st') /\
      (script (pos (network st) + n)%nat).2 = Some e /\
      trace st' = (trace st ++ tr)%list /\
      quiet tr =
        (rounds req (Timeout (options w)) (script <$> seq (pos (network st)) n) ++
         [Dispatch req (script (pos (network st) + n)%nat)])%list /\
      pos (network st') = (pos (network st) + n + 1)%nat.
Proof.
  intros Hc (Hscript & Hnext & Hsleep) n.
  induction n as [|n IH]; intros t st Hn Hfail.
  all: destruct (Do_cases w c req st Hc) as (res & st1 & HDo & Hres & Hnet & Htr).
  all: rewrite Hscript in Hres; apply (f_equal pos) in Hnet; rewrite Hnext in Hnet.
  all: destruct (Hfail 0%nat ltac:(lia)) as [e He].
  all: rewrite Nat.add_0_r, <- Hres in He; destruct res as [resp err].
  all: simpl in He; subst err.
  all: rewrite (retry_failed _ _ _ _ _ _ _ HDo).
  - rewrite decide_False by lia.
    destruct (logFetch_trace w LogAbort st1) as (Hlg & Hnet' & _).
    exists e, (logFetch w LogAbort st1), ([Dispatch req (resp, Some e)] ++ said w LogAbort)%list.
    rewrite Nat.add_0_r, <- Hres. split_and!; [done | done | | |].
    + by rewrite Hlg, Htr, <- app_assoc.
    + rewrite quiet_app. by destruct (said_observed w LogAbort) as (-> & _).
    + rewrite Hnet', Hnet. lia.
  - rewrite decide_True by lia.
    destruct (logFetch_trace w (LogRetry (Timeout (options w)) e) st1)
      as (Hlg & Hnet' & _).
    set (st2 := Sleep_ (Timeout (options w))
                  (logFetch w (LogRetry (Timeout (options w)) e) st1)).
    assert (Hpos : pos (network st2) = S (pos (network st))).
    { unfold st2. simpl. by rewrite Hsleep, Hnet', Hnet. }
    destruct (IH (t + 1) st2) as (e' & st' & tr & Hrun & He' & Htr' & Hquiet & Hend).
    { lia. }
    { intros i Hi. rewrite Hpos.
      replace (S (pos (network st)) + i)%nat with (pos (network st) + S i)%nat by lia.
      apply Hfail. lia. }
    rewrite Hpos in He', Hquiet, Hend.
    replace (S (pos (network st)) + n)%nat with (pos (network st) + S n)%nat
      in He', Hquiet by lia.
    exists e', st', ([Dispatch req (resp, Some e)] ++
                     said w (LogRetry (Timeout (options w)) e) ++
                     [Sleep (Timeout (options w))] ++ tr)%list.
    split_and!; [exact Hrun | exact He' | | | lia].
    + rewrite Htr'. unfold st2. simpl. by rewrite Hlg, Htr, <- !app_assoc.
    + rewrite !quiet_app, Hquiet.
      destruct (said_observed w (LogRetry (Timeout (options w)) e)) as (-> & _).
      simpl. by rewrite Hres.
Qed.

End gives_up.

(** X12. With a transport that answers from a script, [Tries = N >= 0] and
    the first [N + 1] answers failures, [fetch] returns no data and the
    error of answer [N], having made exactly those [N + 1] calls with [N]
    sleeps: whatever the script holds after them, a success included, is
    never asked for. *)
Theorem fetch_gives_up_on_script `{Platform} (w : WebClient) (c : http.Client)
    (method path : string) (params : gmap string string)
    (payload : option io_Reader) (req : http.Request) (st : World)
    (script : nat -> DoResult) (pos : Network -> nat) :
  cl w = Some c ->
  http_NewRequest method path payload = inl req ->
  scripted script pos ->
  0 <= Tries (options w) ->
  (forall i, (i <= Z.to_nat (Tries (options w)))%nat ->
     failed (script (pos (network st) + i)%nat)) ->
  exists e st',
    fetch w method path params payload st = (Ok (None, Some e), st') /\
    (script (pos (network st) + Z.to_nat (Tries (options w)))%nat).2 = Some e /\
    quiet (since st st') =
      (rounds (outgoing req params) (Timeout (options w))
         (script <$> seq (pos (network st)) (Z.to_nat (Tries (options w)))) ++
       [Dispatch (outgoing req params)
          (script (pos (network st) + Z.to_nat (Tries (options w)))%nat)])%list /\
    pos (network st') = (pos (network st) + Z.to_nat (Tries (options w)) + 1)%nat.
Proof.
  intros Hc Hreq Hs HN Hfail. rewrite (fetch_built _ _ _ _ _ _ _ Hreq).
  set (req' := outgoing req params). set (line := LogRequest _ _).
  destruct (logFetch_trace w line st) as (Hlg & Hnet & _).
  destruct (retry_scripted_gives_up w c req' script pos Hc Hs
              (Z.to_nat (Tries (options w))) 0 (logFetch w line st))
    as (e & st' & tr & Hrun & He & Htr & Hquiet & Hend).
  { lia. }
  { by rewrite Hnet. }
  rewrite Hnet in He, Hquiet, Hend.
  exists e, st'. split_and!; [exact Hrun | exact He | | exact Hend].
  rewrite (since_app st st' (said w line ++ tr)) by (by rewrite Htr, Hlg, <- app_assoc).
  rewrite quiet_app, Hquiet. by destruct (said_observed w line) as (-> & _).
Qed.

Lemma fetch_gives_up_on_script_witness :
  (cl (Stub.client default_Options) = Some (Stub.client_of default_Options) /\
   @http_NewRequest _ (Stub.platform (Stub.flaky 2 (Stub.response 200 "ok")))
     "GET" "https://example.test/" None =
     inl (Stub.request "GET" "https://example.test/") /\
   @scripted _ (Stub.platform (Stub.flaky 2 (Stub.response 200 "ok")))
     (Stub.flaky 2 (Stub.response 200 "ok")) (fun n => n) /\
   0 <= Tries (options (Stub.client default_Options)) /\
   (forall i, (i <= Z.to_nat (Tries (options (Stub.client default_Options))))%nat ->
      failed (Stub.flaky 2 (Stub.response 200 "ok") (0 + i)%nat))) /\
  exists e st',
    @fetch _ (Stub.platform (Stub.flaky 2 (Stub.response 200 "ok")))
      (Stub.client default_Options) "GET" "https://example.test/" ∅ None Stub.world =
      (Ok (None, Some e), st') /\
    e = "connection refused" /\
    attempts (since Stub.world st') = 2%nat /\
    network st' = 2%nat.
Proof.
  assert (Hs : @scripted _ (Stub.platform (Stub.flaky 2 (Stub.response 200 "ok")))
                 (Stub.flaky 2 (Stub.response 200 "ok")) (fun n => n))
    by (repeat split; reflexivity).
  assert (HN : 0 <= Tries (options (Stub.client default_Options)))
    by (vm_compute; discriminate).
  assert (Hfail : forall i,
            (i <= Z.to_nat (Tries (options (Stub.client default_Options))))%nat ->
            failed (Stub.flaky 2 (Stub.response 200 "ok") (0 + i)%nat)).
  { intros i Hi. unfold Stub.flaky, failed. simpl in *.
    destruct (Nat.ltb_spec i 2); [eexists; reflexivity|].
    change (Z.to_nat 1) with 1%nat in Hi. lia. }
  split; [split_and!; solve [reflexivity | exact Hs | exact HN | exact Hfail]|].
  destruct (@fetch_gives_up_on_script _
              (Stub.platform (Stub.flaky 2 (Stub.response 200 "ok")))
              (Stub.client default_Options) _ "GET" "https://example.test/" ∅ None
              (Stub.request "GET" "https://example.test/") Stub.world
              (Stub.flaky 2 (Stub.response 200 "ok")) (fun n => n)
              eq_refl eq_refl Hs HN Hfail) as (e & st' & Hrun & He & Hq & Hend).
  exists e, st'. split_and!; [exact Hrun | | | exact Hend].
  - simpl in He. congruence.
  - rewrite <- attempts_quiet, Hq. reflexivity.
Defined.

(** ** More on the constructor *)

(** X13. The client [CreateWebClient] returns is wired from the options it
    settled on: the request timeout of the http client, the timeout of the
    dialer and the TLS handshake timeout of the transport are those of
    [options], and [lastTimeout] is the zero time. Exactly one [Options]
    argument is taken over as it is, with no field checked or defaulted. *)
Theorem CreateWebClient_wires_options `{Platform} (opts : list Options)
    (st st' : World) (w : WebClient) :
  CreateWebClient opts st = (Ok w, st') ->
  (exists c,
     cl w = Some c /\
     http.Timeout c = Timeout (options w) /\
     net.Timeout (http.Dial (http.Transport_ c)) = DialTimeout (options w) /\
     http.TLSHandshakeTimeout (http.Transport_ c) = TlsHandshakeTimeout (options w)) /\
  lastTimeout w = 0 /\
  (forall o, opts = [o] -> options w = o).
Proof.
  intros Hrun.
  destruct (CreateWebClient_cases opts st) as (jar & st1 & Hdef & Hone).
  destruct (decide (Z.of_nat (length opts) = 1)) as [Hlen|Hlen].
  - destruct opts as [|o [|o' opts]]; simpl in Hlen; try lia.
    rewrite (Hone o eq_refl) in Hrun. injection Hrun as <- <-. simpl.
    split_and!; [by eexists | done | congruence].
  - rewrite (Hdef Hlen) in Hrun. injection Hrun as <- <-. simpl.
    split_and!; [by eexists | done |]. intros o ->. by destruct Hlen.
Qed.

Lemma CreateWebClient_wires_options_witness :
  @CreateWebClient _ (Stub.platform Stub.refusing) [Stub.with_Tries (-1)]
    Stub.empty_world = (Ok (Stub.client (Stub.with_Tries (-1))), Stub.world) /\
  (exists c,
     cl (Stub.client (Stub.with_Tries (-1))) = Some c /\
     http.Timeout c = Timeout (options (Stub.client (Stub.with_Tries (-1)))) /\
     net.Timeout (http.Dial (http.Transport_ c)) =
       DialTimeout (options (Stub.client (Stub.with_Tries (-1)))) /\
     http.TLSHandshakeTimeout (http.Transport_ c) =
       TlsHandshakeTimeout (options (Stub.client (Stub.with_Tries (-1))))) /\
  lastTimeout (Stub.client (Stub.with_Tries (-1))) = 0 /\
  (forall o, [Stub.with_Tries (-1)] = [o] ->
     options (Stub.client (Stub.with_Tries (-1))) = o).
Proof.
  split; [reflexivity|].
  exact (@CreateWebClient_wires_options _ (Stub.platform Stub.refusing)
           [Stub.with_Tries (-1)] Stub.empty_world Stub.world
           (Stub.client (Stub.with_Tries (-1))) eq_refl).
Defined.

Section constructor_world.
Context `{Platform}.

(** Where [CreateWebClient] puts the jar of the client it returns. *)
Lemma CreateWebClient_jar (opts : list Options) (st st' : World) (w : WebClient)
    (j : cookiejar_Jar) :
  cookiejar_New.1 = Some j ->
  CreateWebClient opts st = (Ok w, st') ->
  cl w ≫= http.Jar = Some (length (jars st)) /\ jars st' = (jars st ++ [j])%list.
Proof.
  unfold CreateWebClient, cookiejar_New_, mbind, M_bind at 1.
  destruct cookiejar_New as [[j'|] err]; simpl; intros [= <-].
  destruct (decide (Z.of_nat (length opts) ≠ 1)); [by intros [= <- <-]|].
  unfold index. destruct (decide (0 <= 0)); [|lia].
  destruct (opts !! Z.to_nat 0) as [o|]; [|discriminate].
  by intros [= <- <-].
Qed.

End constructor_world.

(** X14. [CreateWebClient] touches neither network nor files and prints
    nothing. When [cookiejar.New] hands back a jar, that jar is put behind
    all jars there are and the client points to it; when it hands back none,
    the client has a nil jar and the heap is as it was. *)
Theorem CreateWebClient_allocates_jar `{Platform} (opts : list Options)
    (st st' : World) (w : WebClient) :
  CreateWebClient opts st = (Ok w, st') ->
  network st' = network st /\ files st' = files st /\ trace st' = trace st /\
  match cookiejar_New.1 with
  | Some j =>
      cl w ≫= http.Jar = Some (length (jars st)) /\ jars st' = (jars st ++ [j])%list
  | None => cl w ≫= http.Jar = None /\ jars st' = jars st
  end.
Proof.
  unfold CreateWebClient, cookiejar_New_, mbind, M_bind at 1.
  destruct cookiejar_New as [[j|] err]; simpl.
  all: destruct (decide (Z.of_nat (length opts) ≠ 1)).
  all: try (intros [= <- <-]; done).
  all: unfold index; destruct (decide (0 <= 0)); [|lia].
  all: destruct (opts !! Z.to_nat 0) as [o|]; [|discriminate].
  all: intros [= <- <-]; done.
Qed.

Lemma CreateWebClient_allocates_jar_witness :
  @CreateWebClient _ (Stub.platform Stub.refusing) [] Stub.world =
    (Ok (Stub.second_client default_Options), Stub.two_jars) /\
  network Stub.two_jars = network Stub.world /\
  files Stub.two_jars = files Stub.world /\
  trace Stub.two_jars = trace Stub.world /\
  cl (Stub.second_client default_Options) ≫= http.Jar = Some (length (jars Stub.world)) /\
  jars Stub.two_jars = (jars Stub.world ++ [[]])%list.
Proof.
  split; [reflexivity|].
  exact (@CreateWebClient_allocates_jar _ (Stub.platform Stub.refusing) []
           Stub.world Stub.two_jars (Stub.second_client default_Options) eq_refl).
Defined.

(** ** More on cookie export and import *)
Section cookies.
Context `{Platform}.

Lemma on_jar_frame {A} (jar : option nat) (f : cookiejar_Jar -> A * cookiejar_Jar)
    (st : World) :
  only_jar_changed jar st (on_jar jar f st).2 /\
  network (on_jar jar f st).2 = network st /\
  trace (on_jar jar f st).2 = trace st.
Proof.
  unfold on_jar. destruct jar as [a|]; [|done].
  destruct (jars st !! a) as [j|]; [|done].
  destruct (f j) as [r j']. unfold only_jar_changed. simpl.
  split_and!; [done | by rewrite length_insert | | done | done].
  intros a' Ha. apply list_lookup_insert_ne. congruence.
Qed.

Lemma ImportCookies_frame (w : WebClient) (file site : string) (st : World) :
  only_jar_changed (cl w ≫= http.Jar) st (ImportCookies w file site st).2 /\
  network (ImportCookies w file site st).2 = network st /\
  trace (ImportCookies w file site st).2 = trace st.
Proof.
  unfold ImportCookies, ReadFile, cl_Jar, mbind, M_bind, mret, M_ret, panic.
  destruct (url_Parse site) as [u|e0]; [|done].
  destruct (ioutil_ReadFile file (files st)) as [d|e1]; [|done].
  destruct (json_Unmarshal d) as [cookies|e2]; [|done].
  destruct (cl w) as [c|]; [|done]. simpl.
  pose proof (on_jar_frame (http.Jar c) (fun j => ((), Jar_SetCookies u cookies j)) st)
    as Hframe.
  by destruct (on_jar _ _ st) as [[[]|msg] st1].
Qed.

End cookies.



(** X16. Whatever its outcome, [ImportCookies] writes no file, calls no
    transport, prints nothing, and changes no jar but the one of its own
    client. *)
Theorem ImportCookies_touches_own_jar_only `{Platform} (w : WebClient)
    (file site : string) (st : World) :
  files (ImportCookies w file site st).2 = files st /\
  network (ImportCookies w file site st).2 = network st /\
  trace (ImportCookies w file site st).2 = trace st /\
  length (jars (ImportCookies w file site st).2) = length (jars st) /\
  forall a, cl w ≫= http.Jar <> Some a ->
    jars (ImportCookies w file site st).2 !! a = jars st !! a.
Proof.
  destruct (ImportCookies_frame w file site st) as ((Hf & Hl & Hj) & Hn & Ht). done.
Qed.

(** X17. Whatever its outcome, [ExportCookies] calls no transport, prints
    nothing, never adds or removes a jar and changes no jar but the one of
    its own client. *)
Theorem ExportCookies_touches_own_jar_only `{Platform} (w : WebClient)
    (file site : string) (st : World) :
  network (ExportCookies w file site st).2 = network st /\
  trace (ExportCookies w file site st).2 = trace st /\
  length (jars (ExportCookies w file site st).2) = length (jars st) /\
  forall a, cl w ≫= http.Jar <> Some a ->
    jars (ExportCookies w file site st).2 !! a = jars st !! a.
Proof.
  unfold ExportCookies, WriteFile, cl_Jar, mbind, M_bind, mret, M_ret, panic.
  destruct (url_Parse site) as [u|e0]; [|done].
  destruct (cl w) as [c|]; [|done]. simpl.
  destruct (on_jar_frame (http.Jar c) (Jar_Cookies u) st)
    as ((_ & Hlen & Hother) & Hnet & Htr).
  destruct (on_jar _ _ st) as [[cookies|msg] st1]; [|done]. simpl in *.
  destruct (json_Marshal cookies) as [data|e1]; [|done].
  destruct (ioutil_WriteFile _ _ _ _) as [[e2|] fs]; done.
Qed.


(** X18. [ExportCookies] fails before it writes anything when the site URL
    does not parse (the world is then as it was) and when the cookies of the
    jar do not serialize (the files are then as they were); each time the
    error returned is that of the failing step. *)
Theorem ExportCookies_fails_before_writing `{Platform} (w : WebClient)
    (file site : string) (st : World) :
  (forall e, url_Parse site = inr e ->
     ExportCookies w file site st = (Ok (Some e), st)) /\
  (forall c a j u e,
     cl w = Some c -> http.Jar c = Some a -> jars st !! a = Some j ->
     url_Parse site = inl u ->
     json_Marshal (Jar_Cookies u j).1 = inr e ->
     (ExportCookies w file site st).1 = Ok (Some e) /\
     files (ExportCookies w file site st).2 = files st).
Proof.
  unfold ExportCookies, WriteFile, cl_Jar, on_jar, mbind, M_bind, mret, M_ret, panic.
  split.
  - by intros e ->.
  - intros c a j u e Hc Ha Hj Hu Hm. rewrite Hu, Hc, Ha, Hj.
    destruct (Jar_Cookies u j) as [cookies j1]. simpl in Hm. by rewrite Hm.
Qed.

Lemma ExportCookies_fails_before_writing_witness :
  @url_Parse _ (Stub.platform Stub.refusing) ":bad" = inr "missing protocol scheme" /\
  @ExportCookies _ (Stub.platform Stub.refusing) (Stub.client default_Options)
    "cookies.txt" ":bad" Stub.one_cookie =
    (Ok (Some "missing protocol scheme"), Stub.one_cookie).
Proof.
  split; [reflexivity|].
  exact (proj1 (@ExportCookies_fails_before_writing _ (Stub.platform Stub.refusing)
                  (Stub.client default_Options) "cookies.txt" ":bad" Stub.one_cookie)
           "missing protocol scheme" eq_refl).
Defined.

(** X19. When the site URL parses and the cookies the jar returns for it
    serialize, [ExportCookies] on a client with a jar writes the file once:
    the data are that serialization, the permission bits 0644, and what it
    returns is what the write returned, its error or nil. *)
Theorem ExportCookies_writes_once `{Platform} (w : WebClient) (c : http.Client)
    (a : nat) (j : cookiejar_Jar) (file site : string) (u : url_URL)
    (data : bytes) (st : World) :
  cl w = Some c -> http.Jar c = Some a -> jars st !! a = Some j ->
  url_Parse site = inl u ->
  json_Marshal (Jar_Cookies u j).1 = inl data ->
  (ExportCookies w file site st).1 =
    Ok (ioutil_WriteFile file data 420 (files st)).1 /\
  files (ExportCookies w file site st).2 =
    (ioutil_WriteFile file data 420 (files st)).2 /\
  jars (ExportCookies w file site st).2 = <[a := (Jar_Cookies u j).2]> (jars st).
Proof.
  intros Hc Ha Hj Hu Hm.
  unfold ExportCookies, WriteFile, cl_Jar, on_jar, mbind, M_bind, mret, M_ret, panic.
  rewrite Hu, Hc, Ha, Hj.
  destruct (Jar_Cookies u j) as [cookies j1]. simpl in Hm. rewrite Hm. simpl.
  by destruct (ioutil_WriteFile file data 420 (files st)) as [[e|] fs].
Qed.

Lemma ExportCookies_writes_once_witness :
  (cl (Stub.client default_Options) = Some (Stub.client_of default_Options) /\
   http.Jar (Stub.client_of default_Options) = Some 0%nat /\
   jars Stub.one_cookie !! 0%nat = Some [("https://example.test/", Stub.sid)] /\
   @url_Parse _ (Stub.platform Stub.refusing) "https://example.test/" =
     inl "https://example.test/" /\
   @json_Marshal _ (Stub.platform Stub.refusing)
     (@Jar_Cookies _ (Stub.platform Stub.refusing) "https://example.test/"
        [("https://example.test/", Stub.sid)]).1 =
     inl (String.list_byte_of_string "sid=42
")) /\
  (@ExportCookies _ (Stub.platform Stub.refusing) (Stub.client default_Options)
     "" "https://example.test/" Stub.one_cookie).1 =
    Ok (Some "no such file or directory") /\
  (@ExportCookies _ (Stub.platform Stub.refusing) (Stub.client default_Options)
     "cookies.txt" "https://example.test/" Stub.one_cookie).1 = Ok None.
Proof.
  split; [split_and!; reflexivity|].
  split.
  - exact (proj1 (@ExportCookies_writes_once _ (Stub.platform Stub.refusing)
             (Stub.client default_Options) (Stub.client_of default_Options) 0%nat
             [("https://example.test/", Stub.sid)] "" "https://example.test/"
             "https://example.test/" (String.list_byte_of_string "sid=42
") Stub.one_cookie eq_refl eq_refl eq_refl eq_refl eq_refl)).
  - exact (proj1 (@ExportCookies_writes_once _ (Stub.platform Stub.refusing)
             (Stub.client default_Options) (Stub.client_of default_Options) 0%nat
             [("https://example.test/", Stub.sid)] "cookies.txt" "https://example.test/"
             "https://example.test/" (String.list_byte_of_string "sid=42
") Stub.one_cookie eq_refl eq_refl eq_refl eq_refl eq_refl)).
Defined.

(** X20. On a client without a jar (a nil client pointer or a nil [Jar])
    both functions panic with a nil dereference and change nothing, but only
    behind their checks: [ExportCookies] once the site URL has parsed,
    [ImportCookies] once the URL has parsed, the file has been read and its
    contents have deserialized. *)
Theorem cookies_without_jar `{Platform} (w : WebClient) (file site : string)
    (u : url_URL) (st : World) :
  cl w ≫= http.Jar = None ->
  url_Parse site = inl u ->
  ExportCookies w file site st = (Panic nil_dereference, st) /\
  (forall d cookies,
     ioutil_ReadFile file (files st) = inl d ->
     json_Unmarshal d = inl cookies ->
     ImportCookies w file site st = (Panic nil_dereference, st)).
Proof.
  intros Hjar Hu.
  unfold ExportCookies, ImportCookies, ReadFile, cl_Jar, on_jar, mbind, M_bind,
    mret, M_ret, panic.
  rewrite Hu. split.
  - destruct (cl w) as [c|]; [|done]. simpl in Hjar. by rewrite Hjar.
  - intros d cookies Hd Hcs. rewrite Hd, Hcs.
    destruct (cl w) as [c|]; [|done]. simpl in Hjar. by rewrite Hjar.
Qed.

Lemma cookies_without_jar_witness :
  (cl Stub.zero_client ≫= http.Jar = None /\
   @url_Parse _ (Stub.platform Stub.refusing) "https://example.test/" =
     inl "https://example.test/") /\
  @ExportCookies _ (Stub.platform Stub.refusing) Stub.zero_client
    "cookies.txt" "https://example.test/" Stub.exported =
    (Panic nil_dereference, Stub.exported) /\
  @ImportCookies _ (Stub.platform Stub.refusing) Stub.zero_client
    "cookies.txt" "https://example.test/" Stub.exported =
    (Panic nil_dereference, Stub.exported).
Proof.
  split; [split; reflexivity|].
  destruct (@cookies_without_jar _ (Stub.platform Stub.refusing) Stub.zero_client
              "cookies.txt" "https://example.test/" "https://example.test/"
              Stub.exported eq_refl eq_refl) as [Hexp Himp].
  split; [exact Hexp|].
  exact (Himp (String.list_byte_of_string "sid=42
") [Stub.sid] eq_refl eq_refl).
Defined.

(** ** Operations composed *)

Lemma ExportCookies_then_ImportCookies_witness :
  (cl (Stub.client default_Options) = Some (Stub.client_of default_Options) /\
   http.Jar (Stub.client_of default_Options) = Some 0%nat /\
   jars Stub.one_cookie !! 0%nat = Some [("https://example.test/", Stub.sid)] /\
   @url_Parse _ (Stub.platform Stub.refusing) "https://example.test/" =
     inl "https://example.test/" /\
   @json_Marshal _ (Stub.platform Stub.refusing)
     (@Jar_Cookies _ (Stub.platform Stub.refusing) "https://example.test/"
        [("https://example.test/", Stub.sid)]).1 =
     inl (String.list_byte_of_string "sid=42
") /\
   (@ioutil_WriteFile _ (Stub.platform Stub.refusing) "cookies.txt"
      (String.list_byte_of_string "sid=42
") 420 (files Stub.one_cookie)).1 = None /\
   @ioutil_ReadFile _ (Stub.platform Stub.refusing) "cookies.txt"
     (@ioutil_WriteFile _ (Stub.platform Stub.refusing) "cookies.txt"
        (String.list_byte_of_string "sid=42
") 420 (files Stub.one_cookie)).2 = inl (String.list_byte_of_string "sid=42
") /\
   @json_Unmarshal _ (Stub.platform Stub.refusing) (String.list_byte_of_string "sid=42
") = inl [Stub.sid]) /\
  exists st1 st2,
    @ExportCookies _ (Stub.platform Stub.refusing) (Stub.client default_Options)
      "cookies.txt" "https://example.test/" Stub.one_cookie = (Ok None, st1) /\
    @ImportCookies _ (Stub.platform Stub.refusing) (Stub.client default_Options)
      "cookies.txt" "https://example.test/" st1 = (Ok None, st2) /\
    jars st2 !! 0%nat =
      Some (@Jar_SetCookies _ (Stub.platform Stub.refusing) "https://example.test/"
              [Stub.sid]
              (@Jar_Cookies _ (Stub.platform Stub.refusing) "https://example.test/"
                 [("https://example.test/", Stub.sid)]).2) /\
    trace st2 = trace Stub.one_cookie.
Proof.
  split; [split_and!; reflexivity|].
  exact (@ExportCookies_then_ImportCookies _ (Stub.platform Stub.refusing)
           (Stub.client default_Options) (Stub.client_of default_Options) 0%nat
           [("https://example.test/", Stub.sid)] "cookies.txt" "https://example.test/"
           "https://example.test/" Stub.one_cookie (String.list_byte_of_string "sid=42
") [Stub.sid] eq_refl eq_refl eq_refl eq_refl eq_refl eq_refl eq_refl eq_refl).
Defined.

(** X22. Two clients made by [CreateWebClient] have jars of their own: the
    jar of the second is at another address than that of the first, and it
    still is the new jar [cookiejar.New] handed back after any
    [ImportCookies] and any [fetch] through the first. *)
Theorem clients_do_not_share_jars `{Platform} (opts1 opts2 : list Options)
    (st st1 st2 : World) (w1 w2 : WebClient) (j0 : cookiejar_Jar) :
  cookiejar_New.1 = Some j0 ->
  CreateWebClient opts1 st = (Ok w1, st1) ->
  CreateWebClient opts2 st1 = (Ok w2, st2) ->
  exists a1 a2,
    cl w1 ≫= http.Jar = Some a1 /\ cl w2 ≫= http.Jar = Some a2 /\ a1 <> a2 /\
    jars st2 !! a2 = Some j0 /\
    (forall file site, jars (ImportCookies w1 file site st2).2 !! a2 = Some j0) /\
    (forall method path params payload,
       jars (fetch w1 method path params payload st2).2 !! a2 = Some j0).
Proof.
  intros Hnew H1 H2.
  destruct (CreateWebClient_jar opts1 st st1 w1 j0 Hnew H1) as [Ha1 Hjars1].
  destruct (CreateWebClient_jar opts2 st1 st2 w2 j0 Hnew H2) as [Ha2 Hjars2].
  assert (Hlen : length (jars st1) = S (length (jars st)))
    by (rewrite Hjars1, length_app; simpl; lia).
  assert (Hlook : jars st2 !! length (jars st1) = Some j0).
  { rewrite Hjars2, lookup_app_r by lia. by rewrite Nat.sub_diag. }
  assert (Hne : cl w1 ≫= http.Jar <> Some (length (jars st1)))
    by (rewrite Ha1; intros [=]; lia).
  exists (length (jars st)), (length (jars st1)).
  split_and!; [exact Ha1 | exact Ha2 | lia | exact Hlook | |].
  - intros file site.
    destruct (ImportCookies_frame w1 file site st2) as ((_ & _ & Hother) & _).
    by rewrite Hother.
  - intros method path params payload.
    destruct (fetch_frame w1 method path params payload st2) as (_ & _ & Hother).
    by rewrite Hother.
Qed.

Lemma clients_do_not_share_jars_witness :
  ((@cookiejar_New _ (Stub.platform Stub.refusing)).1 = Some [] /\
   @CreateWebClient _ (Stub.platform Stub.refusing) [] Stub.empty_world =
     (Ok (Stub.client default_Options), Stub.world) /\
   @CreateWebClient _ (Stub.platform Stub.refusing) [] Stub.world =
     (Ok (Stub.second_client default_Options), Stub.two_jars)) /\
  exists a1 a2,
    cl (Stub.client default_Options) ≫= http.Jar = Some a1 /\
    cl (Stub.second_client default_Options) ≫= http.Jar = Some a2 /\ a1 <> a2 /\
    jars Stub.two_jars !! a2 = Some [] /\
    (forall file site,
       jars (@ImportCookies _ (Stub.platform Stub.refusing)
               (Stub.client default_Options) file site Stub.two_jars).2 !! a2 =
         Some []) /\
    (forall method path params payload,
       jars (@fetch _ (Stub.platform Stub.refusing) (Stub.client default_Options)
               method path params payload Stub.two_jars).2 !! a2 = Some []).
Proof.
  split; [split_and!; reflexivity|].
  exact (@clients_do_not_share_jars _ (Stub.platform Stub.refusing) [] []
           Stub.empty_world Stub.world Stub.two_jars (Stub.client default_Options)
           (Stub.second_client default_Options) [] eq_refl eq_refl eq_refl).
Defined.

(** ** More on the older copy of the loop *)
Section part_000_runs.
Context `{Platform}.
Implicit Types (w : WebClient) (req : http.Request) (st : World).

Lemma part_000_retry_succeeded w req tryCount deferred st resp st1 :
  Do (cl w) req st = (Ok (Some resp, None), st1) ->
  part_000.retry w req tryCount deferred st =
    (Ok (Some (http.content (http.Body resp)), http.fault (http.Body resp)),
     part_000.run_deferred (http.Body resp :: deferred)
       (emit (ReadAll (http.Body resp))
          (logFetch w (LogStatus (http.StatusCode resp)) st1))).
Proof.
  intros HDo. rewrite part_000.retry_equation_1, HDo. simp retry. reflexivity.
Qed.

Lemma part_000_retry_failed w req tryCount deferred st resp err st1 :
  Do (cl w) req st = (Ok (Some resp, Some err), st1) ->
  part_000.retry w req tryCount deferred st =
    if decide (tryCount < Tries (options w)) then
      part_000.retry w req (tryCount + 1) (http.Body resp :: deferred)
        (Sleep_ (Timeout (options w))
           (logFetch w (LogRetry (Timeout (options w)) err)
              (logFetch w (LogStatus (http.StatusCode resp)) st1)))
    else
      (Ok (None, Some err),
       part_000.run_deferred (http.Body resp :: deferred)
         (logFetch w (LogStatus (http.StatusCode resp)) st1)).
Proof.
  intros HDo. rewrite part_000.retry_equation_1, HDo. simp retry.
  destruct (decide _); simp retry; reflexivity.
Qed.

Lemma run_deferred_trace (deferred : list http.ReadCloser) st :
  trace (part_000.run_deferred deferred st) = (trace st ++ (Close <$> deferred))%list.
Proof.
  unfold part_000.run_deferred. revert st.
  induction deferred as [|b ds IH]; intros st; simpl.
  - by rewrite app_nil_r.
  - rewrite IH. simpl. by rewrite <- app_assoc.
Qed.

(** The failed rounds of the older loop: each one defers one more close. *)
Lemma part_000_retry_rounds w c req script pos :
  cl w = Some c -> scripted script pos ->
  forall (k : nat) tryCount deferred st,
    (forall i, (i < k)%nat ->
       failed_with_response (script (pos (network st) + i)%nat)) ->
    tryCount + Z.of_nat k <= Tries (options w) ->
    exists st_k tr,
      part_000.retry w req tryCount deferred st =
        part_000.retry w req (tryCount + Z.of_nat k)
          (rev (bodies (script <$> seq (pos (network st)) k)) ++ deferred) st_k /\
      trace st_k = (trace st ++ tr)%list /\
      quiet tr =
        rounds req (Timeout (options w)) (script <$> seq (pos (network st)) k) /\
      pos (network st_k) = (pos (network st) + k)%nat.
Proof.
  intros Hc (Hscript & Hnext & Hsleep) k.
  induction k as [|k IH]; intros t ds st Hfail Hk.
  - exists st, []. rewrite Z.add_0_r, app_nil_r, Nat.add_0_r. done.
  - destruct (Do_cases w c req st Hc) as (res & st1 & HDo & Hres & Hnet & Htr).
    rewrite Hscript in Hres. apply (f_equal pos) in Hnet. rewrite Hnext in Hnet.
    destruct (Hfail 0%nat ltac:(lia)) as [[resp Hresp] [e He]].
    rewrite Nat.add_0_r, <- Hres in Hresp, He. destruct res as [r1 r2].
    simpl in Hresp, He. subst r1 r2.
    rewrite (part_000_retry_failed _ _ _ _ _ _ _ _ HDo), decide_True by lia.
    set (st0 := logFetch w (LogStatus (http.StatusCode resp)) st1).
    set (st2 := Sleep_ (Timeout (options w))
                  (logFetch w (LogRetry (Timeout (options w)) e) st0)).
    destruct (logFetch_trace w (LogStatus (http.StatusCode resp)) st1)
      as (Hlg0 & Hnet0 & _).
    destruct (logFetch_trace w (LogRetry (Timeout (options w)) e) st0)
      as (Hlg & Hnet' & _).
    fold st0 in Hlg0, Hnet0.
    assert (Hpos : pos (network st2) = S (pos (network st))).
    { unfold st2. simpl. by rewrite Hsleep, Hnet', Hnet0, Hnet. }
    destruct (IH (t + 1) (http.Body resp :: ds) st2)
      as (st_k & tr & Hrun & Htr' & Hquiet & Hend).
    { intros i Hi. rewrite Hpos.
      replace (S (pos (network st)) + i)%nat with (pos (network st) + S i)%nat by lia.
      apply Hfail. lia. }
    { lia. }
    rewrite Hpos in Hrun, Hquiet, Hend.
    exists st_k, ([Dispatch req (Some resp, Some e)] ++
                  said w (LogStatus (http.StatusCode resp)) ++
                  said w (LogRetry (Timeout (options w)) e) ++
                  [Sleep (Timeout (options w))] ++ tr)%list.
    split_and!.
    + rewrite Hrun. replace (t + 1 + Z.of_nat k) with (t + Z.of_nat (S k)) by lia.
      f_equal. simpl seq. rewrite fmap_cons. unfold bodies at 2. simpl.
      rewrite <- Hres. simpl. fold (bodies (script <$> seq (S (pos (network st))) k)).
      by rewrite <- app_assoc.
    + rewrite Htr'. unfold st2. simpl. by rewrite Hlg, Hlg0, Htr, <- !app_assoc.
    + rewrite !quiet_app, Hquiet.
      destruct (said_observed w (LogStatus (http.StatusCode resp))) as (-> & _).
      destruct (said_observed w (LogRetry (Timeout (options w)) e)) as (-> & _).
      simpl. by rewrite Hres.
    + lia.
Qed.

Lemma quiet_closes (deferred : list http.ReadCloser) :
  quiet (Close <$> deferred) = Close <$> deferred.
Proof.
  induction deferred as [|b ds IH]; [done|].
  rewrite fmap_cons. unfold quiet in *. rewrite filter_cons_True by done.
  by rewrite IH.
Qed.

End part_000_runs.

(** X23. When the first call of the transport succeeds, the [fetch] of
    part_000 and the [fetch] of brauser.go do the same: the same result, the
    same calls, the same lines printed. *)
Theorem part_000_fetch_agrees_on_first_success `{Platform} (w : WebClient)
    (c : http.Client) (method path : string) (params : gmap string string)
    (payload : option io_Reader) (req : http.Request) (st : World)
    (resp : http.Response) :
  cl w = Some c ->
  http_NewRequest method path payload = inl req ->
  (http_Do c (jar_of c st) (outgoing req params) (network st)).1.1 =
    (Some resp, None) ->
  part_000.fetch w method path params payload st =
    fetch w method path params payload st.
Proof.
  intros Hc Hreq Hdo. rewrite (fetch_built _ _ _ _ _ _ _ Hreq).
  unfold part_000.fetch. rewrite Hreq. fold (outgoing req params).
  set (req' := outgoing req params) in *. set (line := LogRequest _ _).
  destruct (logFetch_trace w line st) as (_ & Hnet & Hjars & _).
  destruct (Do_cases w c req' (logFetch w line st) Hc)
    as (res & st1 & HDo & Hres & _).
  assert (Hjar : jar_of c (logFetch w line st) = jar_of c st)
    by (unfold jar_of; by rewrite Hjars).
  rewrite Hjar, Hnet, Hdo in Hres. subst res.
  by rewrite (part_000_retry_succeeded _ _ _ _ _ _ _ HDo),
    (retry_succeeded _ _ _ _ _ _ HDo).
Qed.

Lemma part_000_fetch_agrees_on_first_success_witness :
  (cl (Stub.client default_Options) = Some (Stub.client_of default_Options) /\
   @http_NewRequest _ (Stub.platform (Stub.serving (Stub.response 200 "hello")))
     "GET" "https://example.test/ok" None =
     inl (Stub.request "GET" "https://example.test/ok") /\
   Stub.serving (Stub.response 200 "hello") 0%nat =
     (Some (Stub.response 200 "hello"), None)) /\
  @part_000.fetch _ (Stub.platform (Stub.serving (Stub.response 200 "hello")))
    (Stub.client default_Options) "GET" "https://example.test/ok" ∅ None Stub.world =
  @fetch _ (Stub.platform (Stub.serving (Stub.response 200 "hello")))
    (Stub.client default_Options) "GET" "https://example.test/ok" ∅ None Stub.world.
Proof.
  split; [split_and!; reflexivity|].
  exact (@part_000_fetch_agrees_on_first_success _
           (Stub.platform (Stub.serving (Stub.response 200 "hello")))
           (Stub.client default_Options) (Stub.client_of default_Options)
           "GET" "https://example.test/ok" ∅ None
           (Stub.request "GET" "https://example.test/ok") Stub.world
           (Stub.response 200 "hello") eq_refl eq_refl eq_refl).
Defined.

(** X24. In part_000 every failed call that came with a response defers one
    more close of a body. When [k] such calls, [k] within [Tries], are
    followed by a success, [fetch] returns the body of the success and on
    its way out closes all [k + 1] bodies, that of the success first and
    those of the failed calls from the latest to the first. *)
Theorem part_000_fetch_closes_every_body `{Platform} (w : WebClient)
    (c : http.Client) (method path : string) (params : gmap string string)
    (payload : option io_Reader) (req : http.Request) (st : World)
    (script : nat -> DoResult) (pos : Network -> nat) (k : nat)
    (resp : http.Response) :
  cl w = Some c ->
  http_NewRequest method path payload = inl req ->
  scripted script pos ->
  (forall i, (i < k)%nat ->
     failed_with_response (script (pos (network st) + i)%nat)) ->
  script (pos (network st) + k)%nat = (Some resp, None) ->
  Z.of_nat k <= Tries (options w) ->
  exists st',
    part_000.fetch w method path params payload st =
      (Ok (Some (http.content (http.Body resp)), http.fault (http.Body resp)), st') /\
    quiet (since st st') =
      (rounds (outgoing req params) (Timeout (options w))
         (script <$> seq (pos (network st)) k) ++
       [Dispatch (outgoing req params) (Some resp, None); ReadAll (http.Body resp)] ++
       (Close <$> http.Body resp ::
                  rev (bodies (script <$> seq (pos (network st)) k))))%list.
Proof.
  intros Hc Hreq Hs Hfail Hok Hk.
  unfold part_000.fetch. rewrite Hreq. fold (outgoing req params).
  set (req' := outgoing req params). set (line := LogRequest _ _).
  destruct (logFetch_trace w line st) as (Hlg & Hnet & _).
  destruct (part_000_retry_rounds w c req' script pos Hc Hs k 0 [] (logFetch w line st))
    as (st_k & tr & Hrun & Htr & Hquiet & Hend).
  { by rewrite Hnet. }
  { lia. }
  rewrite Hnet in Hrun, Hquiet, Hend. rewrite Hrun, app_nil_r.
  destruct Hs as (Hscript & _).
  destruct (Do_cases w c req' st_k Hc) as (res & st1 & HDo & Hres & _ & Htr1).
  rewrite Hscript, Hend, Hok in Hres. subst res.
  rewrite (part_000_retry_succeeded _ _ _ _ _ _ _ HDo).
  destruct (logFetch_trace w (LogStatus (http.StatusCode resp)) st1) as (Hlg1 & _).
  eexists. split; [reflexivity|].
  rewrite (since_app st _
             (said w line ++ tr ++ [Dispatch req' (Some resp, None)] ++
              said w (LogStatus (http.StatusCode resp)) ++ [ReadAll (http.Body resp)] ++
              (Close <$> http.Body resp ::
                         rev (bodies (script <$> seq (pos (network st)) k))))).
  - rewrite !quiet_app, Hquiet.
    destruct (said_observed w line) as (-> & _).
    destruct (said_observed w (LogStatus (http.StatusCode resp))) as (-> & _).
    rewrite quiet_closes. reflexivity.
  - rewrite run_deferred_trace. simpl. by rewrite Hlg1, Htr1, Htr, Hlg, <- !app_assoc.
Qed.

Lemma part_000_fetch_closes_every_body_witness :
  (cl (Stub.client (Stub.with_Tries 3)) = Some (Stub.client_of (Stub.with_Tries 3)) /\
   @http_NewRequest _
     (Stub.platform (Stub.switching 2 Stub.refused_redirect
                       (Some (Stub.response 200 "ok"), None)))
     "GET" "https://example.test/" None =
     inl (Stub.request "GET" "https://example.test/") /\
   @scripted _
     (Stub.platform (Stub.switching 2 Stub.refused_redirect
                       (Some (Stub.response 200 "ok"), None)))
     (Stub.switching 2 Stub.refused_redirect (Some (Stub.response 200 "ok"), None))
     (fun n => n) /\
   (forall i, (i < 2)%nat ->
      failed_with_response
        ((Stub.switching 2 Stub.refused_redirect (Some (Stub.response 200 "ok"), None))
           (0 + i)%nat)) /\
   (Stub.switching 2 Stub.refused_redirect (Some (Stub.response 200 "ok"), None))
     (0 + 2)%nat = (Some (Stub.response 200 "ok"), None) /\
   Z.of_nat 2 <= Tries (options (Stub.client (Stub.with_Tries 3)))) /\
  exists st',
    @part_000.fetch _
      (Stub.platform (Stub.switching 2 Stub.refused_redirect
                       (Some (Stub.response 200 "ok"), None)))
      (Stub.client (Stub.with_Tries 3)) "GET" "https://example.test/" ∅ None
      Stub.world =
      (Ok (Some (String.list_byte_of_string "ok"), None), st') /\
    quiet (since Stub.world st') =
      (rounds (@outgoing _ (Stub.platform (Stub.switching 2 Stub.refused_redirect
                       (Some (Stub.response 200 "ok"), None)))
                 (Stub.request "GET" "https://example.test/") ∅)
         (Timeout (Stub.with_Tries 3))
         [Stub.refused_redirect; Stub.refused_redirect] ++
       [Dispatch (@outgoing _ (Stub.platform (Stub.switching 2 Stub.refused_redirect
                       (Some (Stub.response 200 "ok"), None)))
                    (Stub.request "GET" "https://example.test/") ∅)
          (Some (Stub.response 200 "ok"), None);
        ReadAll (http.Body (Stub.response 200 "ok"))] ++
       (Close <$> [http.Body (Stub.response 200 "ok");
                   http.Body (Stub.response 302 "moved");
                   http.Body (Stub.response 302 "moved")]))%list.
Proof.
  assert (Hs : @scripted _
     (Stub.platform (Stub.switching 2 Stub.refused_redirect
                       (Some (Stub.response 200 "ok"), None)))
     (Stub.switching 2 Stub.refused_redirect (Some (Stub.response 200 "ok"), None))
     (fun n => n)) by (repeat split; reflexivity).
  assert (Hfail : forall i, (i < 2)%nat ->
      failed_with_response
        ((Stub.switching 2 Stub.refused_redirect (Some (Stub.response 200 "ok"), None))
           (0 + i)%nat)).
  { intros i Hi. unfold Stub.switching, failed_with_response. simpl.
    destruct (Nat.ltb_spec i 2); [split; eexists; reflexivity | lia]. }
  assert (HN : Z.of_nat 2 <= Tries (options (Stub.client (Stub.with_Tries 3))))
    by (vm_compute; discriminate).
  split; [split_and!; solve [reflexivity | exact Hs | exact Hfail | exact HN]|].
  exact (@part_000_fetch_closes_every_body _
     (Stub.platform (Stub.switching 2 Stub.refused_redirect
                       (Some (Stub.response 200 "ok"), None)))
     (Stub.client (Stub.with_Tries 3)) (Stub.client_of (Stub.with_Tries 3))
     "GET" "https://example.test/" ∅ None
     (Stub.request "GET" "https://example.test/") Stub.world
     (Stub.switching 2 Stub.refused_redirect (Some (Stub.response 200 "ok"), None))
     (fun n => n) 2%nat (Stub.response 200 "ok")
     eq_refl eq_refl Hs Hfail eq_refl HN).
Defined.

(** X25. In part_000 a call that comes back without a response makes
    [fetch] panic also when it is not the first: after [k] failed calls
    that came with responses, [k] within [Tries], [fetch] panics with a nil
    dereference right after the call, closing on its way out the [k] bodies
    deferred so far, the latest first. *)
Theorem part_000_fetch_panics_on_later_nil `{Platform} (w : WebClient)
    (c : http.Client) (method path : string) (params : gmap string string)
    (payload : option io_Reader) (req : http.Request) (st : World)
    (script : nat -> DoResult) (pos : Network -> nat) (k : nat)
    (err : option error) :
  cl w = Some c ->
  http_NewRequest method path payload = inl req ->
  scripted script pos ->
  (forall i, (i < k)%nat ->
     failed_with_response (script (pos (network st) + i)%nat)) ->
  script (pos (network st) + k)%nat = (None, err) ->
  Z.of_nat k <= Tries (options w) ->
  exists st',
    part_000.fetch w method path params payload st = (Panic nil_dereference, st') /\
    quiet (since st st') =
      (rounds (outgoing req params) (Timeout (options w))
         (script <$> seq (pos (network st)) k) ++
       [Dispatch (outgoing req params) (None, err)] ++
       (Close <$> rev (bodies (script <$> seq (pos (network st)) k))))%list.
Proof.
  intros Hc Hreq Hs Hfail Hnil Hk.
  unfold part_000.fetch. rewrite Hreq. fold (outgoing req params).
  set (req' := outgoing req params). set (line := LogRequest _ _).
  destruct (logFetch_trace w line st) as (Hlg & Hnet & _).
  destruct (part_000_retry_rounds w c req' script pos Hc Hs k 0 [] (logFetch w line st))
    as (st_k & tr & Hrun & Htr & Hquiet & Hend).
  { by rewrite Hnet. }
  { lia. }
  rewrite Hnet in Hrun, Hquiet, Hend. rewrite Hrun, app_nil_r.
  destruct Hs as (Hscript & _).
  destruct (Do_cases w c req' st_k Hc) as (res & st1 & HDo & Hres & _ & Htr1).
  rewrite Hscript, Hend, Hnil in Hres. subst res.
  rewrite (part_000_retry_nil _ _ _ _ _ _ _ HDo).
  eexists. split; [reflexivity|].
  rewrite (since_app st _
             (said w line ++ tr ++ [Dispatch req' (None, err)] ++
              (Close <$> rev (bodies (script <$> seq (pos (network st)) k))))).
  - rewrite !quiet_app, Hquiet, quiet_closes.
    by destruct (said_observed w line) as (-> & _).
  - rewrite run_deferred_trace. by rewrite Htr1, Htr, Hlg, <- !app_assoc.
Qed.

Lemma part_000_fetch_panics_on_later_nil_witness :
  (cl (Stub.client (Stub.with_Tries 3)) = Some (Stub.client_of (Stub.with_Tries 3)) /\
   @http_NewRequest _
     (Stub.platform (Stub.switching 1 Stub.refused_redirect
                       (None, Some "connection refused")))
     "GET" "https://example.test/" None =
     inl (Stub.request "GET" "https://example.test/") /\
   @scripted _
     (Stub.platform (Stub.switching 1 Stub.refused_redirect
                       (None, Some "connection refused")))
     (Stub.switching 1 Stub.refused_redirect (None, Some "connection refused"))
     (fun n => n) /\
   (forall i, (i < 1)%nat ->
      failed_with_response
        (Stub.switching 1 Stub.refused_redirect (None, Some "connection refused")
           (0 + i)%nat)) /\
   Stub.switching 1 Stub.refused_redirect (None, Some "connection refused")
     (0 + 1)%nat = (None, Some "connection refused") /\
   Z.of_nat 1 <= Tries (options (Stub.client (Stub.with_Tries 3)))) /\
  exists st',
    @part_000.fetch _
      (Stub.platform (Stub.switching 1 Stub.refused_redirect
                        (None, Some "connection refused")))
      (Stub.client (Stub.with_Tries 3)) "GET" "https://example.test/" ∅ None
      Stub.world = (Panic nil_dereference, st') /\
    attempts (since Stub.world st') = 2%nat.
Proof.
  assert (Hs : @scripted _
     (Stub.platform (Stub.switching 1 Stub.refused_redirect
                       (None, Some "connection refused")))
     (Stub.switching 1 Stub.refused_redirect (None, Some "connection refused"))
     (fun n => n)) by (repeat split; reflexivity).
  assert (Hfail : forall i, (i < 1)%nat ->
      failed_with_response
        (Stub.switching 1 Stub.refused_redirect (None, Some "connection refused")
           (0 + i)%nat)).
  { intros i Hi. unfold Stub.switching, failed_with_response. simpl.
    destruct (Nat.ltb_spec i 1); [split; eexists; reflexivity | lia]. }
  assert (HN : Z.of_nat 1 <= Tries (options (Stub.client (Stub.with_Tries 3))))
    by (vm_compute; discriminate).
  split; [split_and!; solve [reflexivity | exact Hs | exact Hfail | exact HN]|].
  destruct (@part_000_fetch_panics_on_later_nil _
     (Stub.platform (Stub.switching 1 Stub.refused_redirect
                       (None, Some "connection refused")))
     (Stub.client (Stub.with_Tries 3)) (Stub.client_of (Stub.with_Tries 3))
     "GET" "https://example.test/" ∅ None
     (Stub.request "GET" "https://example.test/") Stub.world
     (Stub.switching 1 Stub.refused_redirect (None, Some "connection refused"))
     (fun n => n) 1%nat (Some "connection refused")
     eq_refl eq_refl Hs Hfail eq_refl HN) as (st' & Hrun & Hq).
  exists st'. split; [exact Hrun|].
  rewrite <- attempts_quiet, Hq. reflexivity.
Defined.

(** ** The order of a map has no say over distinct header keys *)
Section header_order.
Context `{Platform}.

Lemma Header_Add_comm (h : http.Header) (k1 v1 k2 v2 : string) :
  CanonicalMIMEHeaderKey k1 <> CanonicalMIMEHeaderKey k2 ->
  Header_Add (Header_Add h k1 v1) k2 v2 = Header_Add (Header_Add h k2 v2) k1 v1.
Proof.
  intros Hne. unfold Header_Add.
  rewrite !lookup_insert_ne by congruence.
  apply insert_insert_ne. congruence.
Qed.

Lemma req_Header_Add_comm (req : http.Request) (x y : string * string) :
  CanonicalMIMEHeaderKey x.1 <> CanonicalMIMEHeaderKey y.1 ->
  req_Header_Add (req_Header_Add req x) y = req_Header_Add (req_Header_Add req y) x.
Proof.
  intros Hne. unfold req_Header_Add. simpl. f_equal. by apply Header_Add_comm.
Qed.

Lemma foldl_req_Header_Add_perm (l1 l2 : list (string * string)) :
  l1 ≡ₚ l2 ->
  NoDup ((fun kp => CanonicalMIMEHeaderKey kp.1) <$> l1) ->
  forall req, foldl req_Header_Add req l1 = foldl req_Header_Add req l2.
Proof.
  induction 1 as [|x l1 l2 Hperm IH|x y l|l1 l2 l3 Hp1 IH1 Hp2 IH2]; intros Hnd req.
  - done.
  - simpl. apply IH. by apply NoDup_cons in Hnd as [_ ?].
  - simpl. f_equal. apply req_Header_Add_comm.
    rewrite !fmap_cons in Hnd. apply NoDup_cons in Hnd as [Hnotin _].
    intros Heq. apply Hnotin. rewrite Heq. apply elem_of_cons. by left.
  - rewrite IH1 by done. apply IH2. by rewrite <- Hp1.
Qed.

Lemma filter_none {A} (P : A -> Prop) `{forall x, Decision (P x)} (l : list A) :
  (forall z, z ∈ l -> ~ P z) -> filter P l = [].
Proof.
  induction l as [|y l IH]; intros Hall; [done|].
  rewrite filter_cons_False by (apply Hall, elem_of_cons; by left).
  apply IH. intros z Hz. apply Hall, elem_of_cons. by right.
Qed.

Lemma filter_unique {A B} `{EqDecision B} (f : A -> B) (l : list A) (x : A) :
  NoDup (f <$> l) -> x ∈ l -> filter (fun y => f y = f x) l = [x].
Proof.
  induction l as [|y l IH]; intros Hnd Hin; [by apply elem_of_nil in Hin|].
  rewrite fmap_cons in Hnd. apply NoDup_cons in Hnd as [Hnotin Hnd].
  apply elem_of_cons in Hin as [->|Hin].
  - rewrite filter_cons_True by done. f_equal.
    apply filter_none. intros z Hz Heq.
    apply Hnotin. rewrite <- Heq. by apply list_elem_of_fmap_2.
  - rewrite filter_cons_False; [by apply IH|].
    intros Heq. apply Hnotin. rewrite Heq. by apply list_elem_of_fmap_2.
Qed.

Lemma canonical_keys_NoDup (params : gmap string string) :
  (forall k1 k2, is_Some (params !! k1) -> is_Some (params !! k2) ->
     CanonicalMIMEHeaderKey k1 = CanonicalMIMEHeaderKey k2 -> k1 = k2) ->
  NoDup ((fun kp => CanonicalMIMEHeaderKey kp.1) <$> map_to_list params).
Proof.
  intros Hinj. apply NoDup_fmap_2_strong; [|apply NoDup_map_to_list].
  intros [k1 v1] [k2 v2] H1%elem_of_map_to_list H2%elem_of_map_to_list Heq.
  simpl in Heq. assert (k1 = k2) as -> by (apply Hinj; eauto).
  congruence.
Qed.

End header_order.

(** X26. When no two keys of [params] fall together under one canonical
    key, the request [fetch] sends does not depend on the order in which Go
    walks the map: every order gives the same request, and under the
    canonical key of each entry the header holds what it held before
    followed by the one value of that entry. *)
Theorem outgoing_order_irrelevant `{Platform} (req : http.Request)
    (params : gmap string string) :
  (forall k1 k2, is_Some (params !! k1) -> is_Some (params !! k2) ->
     CanonicalMIMEHeaderKey k1 = CanonicalMIMEHeaderKey k2 -> k1 = k2) ->
  (forall l, l ≡ₚ map_to_list params ->
     foldl req_Header_Add req l = outgoing req params) /\
  (forall k v, params !! k = Some v ->
     http.Header_ (outgoing req params) !! CanonicalMIMEHeaderKey k =
       Some (default [] (http.Header_ req !! CanonicalMIMEHeaderKey k) ++ [v])%list).
Proof.
  intros Hinj. pose proof (canonical_keys_NoDup params Hinj) as Hnd. split.
  - intros l Hl. unfold outgoing. apply foldl_req_Header_Add_perm.
    + by rewrite Hl, range_perm.
    + by rewrite Hl.
  - intros k v Hkv.
    assert (Hin : (k, v) ∈ range params)
      by (rewrite range_perm; by apply elem_of_map_to_list).
    assert (Hnd' : NoDup ((fun kp => CanonicalMIMEHeaderKey kp.1) <$> range params))
      by (by rewrite range_perm).
    pose proof (foldl_Header_Add (range params) req (CanonicalMIMEHeaderKey k)) as Hh.
    rewrite (filter_unique (fun kp => CanonicalMIMEHeaderKey kp.1) _ (k, v) Hnd' Hin)
      in Hh.
    fold (outgoing req params) in Hh. simpl in Hh.
    destruct (http.Header_ (outgoing req params) !! CanonicalMIMEHeaderKey k)
      as [vs|] eqn:Hlook; simpl in Hh.
    + by rewrite Hh.
    + by destruct (default [] (http.Header_ req !! CanonicalMIMEHeaderKey k)).
Qed.

Lemma outgoing_order_irrelevant_witness :
  (forall k1 k2,
     is_Some (({["accept" := "text/plain"; "x-token" := "a"]} : gmap string string) !! k1) ->
     is_Some (({["accept" := "text/plain"; "x-token" := "a"]} : gmap string string) !! k2) ->
     @CanonicalMIMEHeaderKey _ (Stub.platform Stub.refusing) k1 =
     @CanonicalMIMEHeaderKey _ (Stub.platform Stub.refusing) k2 -> k1 = k2) /\
  foldl (@req_Header_Add _ (Stub.platform Stub.refusing))
    (Stub.request "GET" "https://example.test/")
    [("x-token", "a"); ("accept", "text/plain")] =
    @outgoing _ (Stub.platform Stub.refusing)
      (Stub.request "GET" "https://example.test/")
      {["accept" := "text/plain"; "x-token" := "a"]} /\
  http.Header_ (@outgoing _ (Stub.platform Stub.refusing)
                  (Stub.request "GET" "https://example.test/")
                  {["accept" := "text/plain"; "x-token" := "a"]}) !! "X-Token" =
    Some ["a"].
Proof.
  assert (Hinj : forall k1 k2,
     is_Some (({["accept" := "text/plain"; "x-token" := "a"]} : gmap string string) !! k1) ->
     is_Some (({["accept" := "text/plain"; "x-token" := "a"]} : gmap string string) !! k2) ->
     @CanonicalMIMEHeaderKey _ (Stub.platform Stub.refusing) k1 =
     @CanonicalMIMEHeaderKey _ (Stub.platform Stub.refusing) k2 -> k1 = k2).
  { intros k1 k2 [v1 H1] [v2 H2].
    apply lookup_insert_Some in H1 as [[<- _]|[_ H1]];
      [|apply lookup_singleton_Some in H1 as [<- _]].
    all: apply lookup_insert_Some in H2 as [[<- _]|[_ H2]];
      [|apply lookup_singleton_Some in H2 as [<- _]].
    all: first [reflexivity | vm_compute; discriminate]. }
  split; [exact Hinj|].
  destruct (@outgoing_order_irrelevant _ (Stub.platform Stub.refusing)
              (Stub.request "GET" "https://example.test/")
              {["accept" := "text/plain"; "x-token" := "a"]} Hinj) as [Hany Hval].
  split.
  - apply Hany. vm_compute.
    first [reflexivity | apply perm_swap].
  - exact (Hval "x-token" "a" eq_refl).
Defined.

(** ** The callers of fetch *)

(** X27. [Get], [Post] and [CustomRequest] send what [http.NewRequest]
    built for them and nothing else: [Get] the request for the method GET
    and a nil payload, [Post] the one for the method POST and its payload,
    [CustomRequest] the one for the method it is given; each with the
    entries of [params] added to the header. A URL that [http.NewRequest]
    rejects makes each of them return that error with nothing sent. *)
Theorem callers_send_built_request `{Platform} (w : WebClient)
    (method path : string) (params : gmap string string)
    (payload : option io_Reader) (st : World) :
  (forall req r res,
     http_NewRequest "GET" path None = inl req ->
     Dispatch r res ∈ since st (Get w path params st).2 ->
     r = outgoing req params) /\
  (forall req r res,
     http_NewRequest "POST" path payload = inl req ->
     Dispatch r res ∈ since st (Post w path params payload st).2 ->
     r = outgoing req params) /\
  (forall req r res,
     http_NewRequest method path payload = inl req ->
     Dispatch r res ∈ since st (CustomRequest w method path params payload st).2 ->
     r = outgoing req params) /\
  (forall e, http_NewRequest "GET" path None = inr e ->
     Get w path params st = (Ok (None, Some e), st)) /\
  (forall e, http_NewRequest "POST" path payload = inr e ->
     Post w path params payload st = (Ok (None, Some e), st)) /\
  (forall e, http_NewRequest method path payload = inr e ->
     CustomRequest w method path params payload st = (Ok (None, Some e), st)).
Proof.
  unfold Get, Post, CustomRequest. split_and!.
  - intros req r res Hreq Hin. exact (fetch_sent w _ _ params _ req st Hreq r res Hin).
  - intros req r res Hreq Hin. exact (fetch_sent w _ _ params _ req st Hreq r res Hin).
  - intros req r res Hreq Hin. exact (fetch_sent w _ _ params _ req st Hreq r res Hin).
  - intros e He. unfold fetch. by rewrite He.
  - intros e He. unfold fetch. by rewrite He.
  - intros e He. unfold fetch. by rewrite He.
Qed.

Lemma callers_send_built_request_witness :
  @http_NewRequest _ (Stub.platform Stub.refusing) "POST" "https://example.test/form"
    (Some (String.list_byte_of_string "a=1")) =
    inl (@http.Build_Request Stub.types "POST" "https://example.test/form" ∅
           (Some (String.list_byte_of_string "a=1"))) /\
  forall r res,
    Dispatch r res ∈
      since Stub.world
        (@Post _ (Stub.platform Stub.refusing) (Stub.client default_Options)
           "https://example.test/form" ∅ (Some (String.list_byte_of_string "a=1"))
           Stub.world).2 ->
    r = @outgoing _ (Stub.platform Stub.refusing)
          (@http.Build_Request Stub.types "POST" "https://example.test/form" ∅
             (Some (String.list_byte_of_string "a=1"))) ∅.
Proof.
  split; [reflexivity|]. intros r res Hin.
  exact (proj1 (proj2 (@callers_send_built_request _ (Stub.platform Stub.refusing)
                  (Stub.client default_Options) "POST" "https://example.test/form" ∅
                  (Some (String.list_byte_of_string "a=1")) Stub.world))
           _ r res eq_refl Hin).
Defined.
